(** * discord-scoreboard-bot: the score record, its renderer and its commands

    A shallow embedding of [discord-scoreboard-bot.py].

    - Python [str] is a sequence of Unicode code points: [pystr] is a list
      of code points ([N]), so that [len] counts characters (["Σ"] is one).
    - Python [int] is unbounded: [Z].
    - The JSON file is a [gmap] from context key to a record dictionary.
    - The commands run in a small state-and-exception monad over the store
      and the trace of what was sent to Discord.

    Outside the model: a failure of the JSON writer, an answer of Discord
    other than "found" or "not found", and the interpreter's limits on
    the number of digits of an int and on the size of a width. *)

From Stdlib Require Import ZArith NArith String Ascii List Decimal DecimalString.
From Stdlib Require Import DecimalPos DecimalZ.
From stdpp Require Import base option list gmap strings.

Open Scope Z_scope.

(* ------------------------------------------------------------------ *)
(** ** Python strings *)

Module PyStr.

(** A [str]: the list of its code points. *)
Definition pystr : Type := list N.

(** An ASCII literal of the source, read as code points. *)
Definition lit (s : string) : pystr :=
  List.map N_of_ascii (list_ascii_of_string s).

Definition NL : pystr := [10%N].          (* "\n" *)
Definition SIGMA : pystr := [931%N].      (* "Σ", U+03A3 *)
Definition DELTA : pystr := [916%N].      (* "Δ", U+0394 *)
Definition LBRACKET : pystr := [12304%N]. (* "【", U+3010 *)
Definition RBRACKET : pystr := [12305%N]. (* "】", U+3011 *)

(** ["c" * n]: a negative count gives the empty string. *)
Definition repeat_char (c : N) (n : Z) : pystr := replicate (Z.to_nat n) c.

(** [s.rjust(w)], also what the format spec [>w] does to a string:
    pad with spaces on the left up to [w] characters, never truncate. *)
Definition rjust (w : nat) (s : pystr) : pystr :=
  replicate (w - length s)%nat 32%N ++ s.

(** [s[:n]] for a non-negative [n]. *)
Definition slice_to (n : nat) (s : pystr) : pystr := take n s.

(** [str(x)] for an int: decimal digits, ["-"] in front of a negative. *)
Definition str_int (x : Z) : pystr := lit (NilZero.string_of_int (Z.to_int x)).

(** [f"{x:+d}"]: the sign is always written; zero is ["+0"]. *)
Definition fmt_plus_d (x : Z) : pystr :=
  (if x <? 0 then lit "-" else lit "+")
    ++ lit (NilEmpty.string_of_uint (N.to_uint (Z.abs_N x))).

(** [f"{s:>{w}}"] on a string [s]: a negative [w] makes the format spec
    [">-1"], which Python refuses for strings (ValueError); [None] is
    that exception. *)
Definition fmt_right (w : Z) (s : pystr) : option pystr :=
  if w <? 0 then None else Some (rjust (Z.to_nat w) s).

(** [s.encode("ascii")] succeeds iff every code point is below 128. *)
Definition is_ascii_char (c : N) : bool := (c <? 128)%N.

End PyStr.
Export PyStr.

(* ------------------------------------------------------------------ *)
(** ** Model: Round and Board *)

Record Round : Type := mkRound { a : Z; b : Z }.

Record Board : Type := mkBoard {
  title : pystr;
  player_a : pystr;
  player_b : pystr;
  rounds : list Round;
  message_id : option Z;
  COL_RND : Z;
  COL_PLY : Z;
  zero_as_dash : bool
}.

(** The dataclass constructor with its defaults:
    [Board(title=.., player_a=.., player_b=.., rounds=..)]. *)
Definition new_Board (t pa pb : pystr) (rs : list Round) : Board :=
  {| title := t; player_a := pa; player_b := pb; rounds := rs;
     message_id := None; COL_RND := 5; COL_PLY := 10; zero_as_dash := true |}.

(** [Board._is_ascii]. *)
Definition _is_ascii (s : pystr) : bool := forallb is_ascii_char s.

(** [Board._validate_name]. *)
Definition _validate_name (name : option pystr) : option pystr :=
  match name with
  | None => None
  | Some n => if negb (_is_ascii n) then None else Some (slice_to 8 n)
  end.

(** [sum(r.a for r in rounds)], from the left starting at 0 as [sum] does. *)
Definition sum_ints (l : list Z) : Z := fold_left Z.add l 0.

(** [Board.totals]. *)
Definition totals (bd : Board) : Z * Z :=
  (sum_ints (List.map a (rounds bd)), sum_ints (List.map b (rounds bd))).

(* ------------------------------------------------------------------ *)
(** ** Renderer *)

Section Render.
Variable bd : Board.

(** [hline()], with its trailing newline. *)
Definition hline : pystr :=
  lit "+" ++ repeat_char 45 (COL_RND bd) ++ lit "+"
    ++ repeat_char 45 (COL_PLY bd) ++ lit "+"
    ++ repeat_char 45 (COL_PLY bd) ++ lit "+" ++ NL.

(** [fmt_name]: drop non-ASCII, first 8, right-justified in 8, a space
    on each side. *)
Definition fmt_name (name : pystr) : pystr :=
  let safe := filter (λ c, is_ascii_char c = true) name in
  lit " " ++ rjust 8 (slice_to 8 safe) ++ lit " ".

(** [fmt_rnd]. *)
Definition fmt_rnd (text : pystr) : option pystr :=
  s ← fmt_right (COL_RND bd - 1) text; Some (s ++ lit " ").

(** The text of an unsigned score cell before justification. *)
Definition score_text (x : Z) : pystr :=
  if x =? 0 then (if zero_as_dash bd then lit "-" else lit "0")
  else str_int x.

(** [fmt_score_val]. *)
Definition fmt_score_val (x : Z) : option pystr :=
  s ← fmt_right (COL_PLY bd - 1) (score_text x); Some (s ++ lit " ").

(** [fmt_score_signed]. *)
Definition fmt_score_signed (x : Z) : option pystr :=
  s ← fmt_right (COL_PLY bd - 1) (fmt_plus_d x); Some (s ++ lit " ").

(** A table row ["|{c1}|{c2}|{c3}|"], without newline. *)
Definition row (c1 c2 c3 : pystr) : pystr :=
  lit "|" ++ c1 ++ lit "|" ++ c2 ++ lit "|" ++ c3 ++ lit "|".

(** The header line, without its newline. *)
Definition header_row : option pystr :=
  c1 ← fmt_rnd (lit "RND");
  Some (row c1 (fmt_name (player_a bd)) (fmt_name (player_b bd))).

(** One element of [body_lines]: round [r] at 1-based position [i]. *)
Definition body_line (i : Z) (r : Round) : option pystr :=
  c1 ← fmt_rnd (str_int i);
  c2 ← fmt_score_val (a r);
  c3 ← fmt_score_val (b r);
  Some (row c1 c2 c3).

(** [for i, r in enumerate(rounds, start=i): body_lines.append(..)]. *)
Fixpoint body_lines_from (i : Z) (rs : list Round) : option (list pystr) :=
  match rs with
  | [] => Some []
  | r :: rs' =>
      l ← body_line i r;
      ls ← body_lines_from (i + 1) rs';
      Some (l :: ls)
  end.

Definition body_lines : option (list pystr) := body_lines_from 1 (rounds bd).

(** ["\n".join(lines)]. *)
Fixpoint join_nl (lines : list pystr) : pystr :=
  match lines with
  | [] => []
  | [l] => l
  | l :: ls => l ++ NL ++ join_nl ls
  end.

(** [body]: the joined rows and a final newline, or nothing at all. *)
Definition body_of (lines : list pystr) : pystr :=
  match lines with
  | [] => []
  | _ => join_nl lines ++ NL
  end.

(** The Σ line of [footer], without its newline. *)
Definition totals_row : option pystr :=
  let '(ta, tb) := totals bd in
  c1 ← fmt_rnd SIGMA;
  c2 ← fmt_score_val ta;
  c3 ← fmt_score_val tb;
  Some (row c1 c2 c3).

(** The Δ line of [footer], without its newline. *)
Definition diff_row : option pystr :=
  let '(ta, tb) := totals bd in
  let diff := ta - tb in
  c1 ← fmt_rnd DELTA;
  c2 ← fmt_score_signed diff;      (* [+diff]: unary plus is the identity *)
  c3 ← fmt_score_signed (- diff);
  Some (row c1 c2 c3).

Definition footer : option pystr :=
  t ← totals_row; d ← diff_row; Some (t ++ NL ++ d ++ NL).

(** [table]. The header is formatted first, then the rows, then the
    footer; any of them failing fails the whole rendering. *)
Definition table : option pystr :=
  h ← header_row;
  ls ← body_lines;
  f ← footer;
  Some (hline ++ (h ++ NL) ++ hline ++ body_of ls ++ hline ++ f ++ hline).

(** The title line: ["【{title}】 {player_a} vs {player_b}"]. *)
Definition title_line : pystr :=
  LBRACKET ++ title bd ++ RBRACKET ++ lit " " ++ player_a bd
    ++ lit " vs " ++ player_b bd.

(** [Board.render]. *)
Definition render : option pystr :=
  t ← table;
  Some (lit "**" ++ title_line ++ lit "**" ++ NL ++ lit "```" ++ NL
          ++ t ++ lit "```").
End Render.


(* ------------------------------------------------------------------ *)
(** ** Persistence: record dictionaries *)

(** A JSON value, as [json.load] returns it. A [dict] keeps its items in
    insertion order; its keys are written here as byte strings. *)
#[warnings="-register-all"]
Inductive json : Type :=
| JNull
| JBool (v : bool)
| JInt (z : Z)
| JStr (s : pystr)
| JList (l : list json)
| JDict (d : list (string * json)).

Definition dict : Type := list (string * json).

(** [d.get(k)]. *)
Definition dict_get (k : string) (d : dict) : option json :=
  snd <$> List.find (λ kv, String.eqb (fst kv) k) d.

(** [asdict(r)] for a Round. *)
Definition Round_asdict (r : Round) : json :=
  JDict [("a"%string, JInt (a r)); ("b"%string, JInt (b r))].

(** [Board.to_dict]: the fields in declaration order. *)
Definition to_dict (bd : Board) : dict :=
  [ ("title"%string, JStr (title bd));
    ("player_a"%string, JStr (player_a bd));
    ("player_b"%string, JStr (player_b bd));
    ("rounds"%string, JList (List.map Round_asdict (rounds bd)));
    ("message_id"%string,
       match message_id bd with Some m => JInt m | None => JNull end);
    ("COL_RND"%string, JInt (COL_RND bd));
    ("COL_PLY"%string, JInt (COL_PLY bd));
    ("zero_as_dash"%string, JBool (zero_as_dash bd)) ].

(** Reading a field at the type the dataclass declares. The dataclass
    itself does not check types: a dictionary with a field of another
    type is outside this model, and reading it gives [None]. *)
Definition as_str (j : json) : option pystr :=
  match j with JStr s => Some s | _ => None end.
Definition as_int (j : json) : option Z :=
  match j with JInt z => Some z | _ => None end.
Definition as_bool (j : json) : option bool :=
  match j with JBool v => Some v | _ => None end.
Definition as_opt_int (j : json) : option (option Z) :=
  match j with JNull => Some None | JInt z => Some (Some z) | _ => None end.

(** [Round] called with the items of [r] as keywords: exactly [a] and [b]. *)
Definition Round_of_dict (j : json) : option Round :=
  match j with
  | JDict d =>
      match dict_get "a" d, dict_get "b" d with
      | Some ja, Some jb =>
          if (length d =? 2)%nat
          then x ← as_int ja; y ← as_int jb; Some (mkRound x y)
          else None
      | _, _ => None
      end
  | _ => None
  end.

(** [Board.from_dict], with the defaults of its [d.get(k, default)]. *)
Definition from_dict (d : dict) : option Board :=
  rs ← match dict_get "rounds" d with
       | None => Some []
       | Some (JList l) => mapM Round_of_dict l
       | Some _ => None
       end;
  t ← as_str (default (JStr (lit "Scoreboard")) (dict_get "title" d));
  pa ← as_str (default (JStr (lit "PlayerA")) (dict_get "player_a" d));
  pb ← as_str (default (JStr (lit "PlayerB")) (dict_get "player_b" d));
  mid ← as_opt_int (default JNull (dict_get "message_id" d));
  cr ← as_int (default (JInt 5) (dict_get "COL_RND" d));
  cp ← as_int (default (JInt 10) (dict_get "COL_PLY" d));
  zd ← as_bool (default (JBool true) (dict_get "zero_as_dash" d));
  Some {| title := t; player_a := pa; player_b := pb; rounds := rs;
          message_id := mid; COL_RND := cr; COL_PLY := cp;
          zero_as_dash := zd |}.

(* ------------------------------------------------------------------ *)
(** ** The command monad *)

(** The followup messages of the commands, one constructor per text. *)
Inductive reply : Type :=
| MsgNamesNotAscii                 (* board_start: names must be ASCII *)
| MsgAlreadyExists                 (* board_start: a board already exists *)
| MsgCreated                       (* board_start: created *)
| MsgStartFirst                    (* board_add: create a board first *)
| MsgAdded (n : nat) (x y : Z)     (* "追加: RND {n}  A={x}  B={y}" *)
| MsgNoBoard                       (* no board in this channel *)
| MsgNoSuchRound (round_no : Z) (max : nat)
    (* "ラウンド {round_no} は存在しません。現在の最大ラウンドは {max} です。" *)
| MsgEdited (round_no : Z) (x y : Z)
| MsgPlayerANotAscii
| MsgPlayerBNotAscii
| MsgRenamed
| MsgBadStyle                      (* style must be 'dash' or 'zero' *)
| MsgZeroStyle (dash : bool).

(** What a command does to the outside, in order. *)
Inductive event : Type :=
| Send (content : pystr)                     (* inter.channel.send *)
| EditMsg (id : option Z) (content : pystr)  (* fetch_message(id), msg.edit *)
| Save (k : string) (d : dict)               (* _save_all with data[k] = d *)
| Followup (r : reply).                      (* inter.followup.send *)

(** The JSON file and the trace. *)
Record world : Type := mkWorld {
  data : gmap string dict;
  log : list event
}.

(** What Discord answers during one command: whether [fetch_message]
    finds the message (otherwise it raises [NotFound]), and the id of a
    message the command sends. *)
Record discord : Type := mkDiscord {
  fetch_found : option Z → bool;
  sent_id : Z
}.

Inductive res (A : Type) : Type :=
| Val (x : A)
| Exn.                (* an exception no handler of the command catches *)
Arguments Val {A} x.
Arguments Exn {A}.

Definition M (A : Type) : Type := world → res A * world.

Definition ret {A} (x : A) : M A := λ w, (Val x, w).
Definition bind {A B} (m : M A) (f : A → M B) : M B :=
  λ w, match m w with
       | (Val x, w') => f x w'
       | (Exn, w') => (Exn, w')
       end.
Definition raise {A} : M A := λ w, (Exn, w).
Definition lift {A} (o : option A) : M A :=
  match o with Some x => ret x | None => raise end.
Definition emit (ev : event) : M unit :=
  λ w, (Val tt, {| data := data w; log := log w ++ [ev] |}).

Notation "x <~ m ; f" := (bind m (λ x, f))
  (at level 20, m at level 100, f at level 200, only parsing).
Notation "m ;;; f" := (bind m (λ _, f))
  (at level 100, f at level 200, right associativity, only parsing).

(* ------------------------------------------------------------------ *)
(** ** Commands *)

(** Truth value of [board.message_id]: [None] and [0] are false. *)
Definition truthy_id (m : option Z) : bool :=
  match m with Some z => negb (z =? 0) | None => false end.

(** [s or d] for an optional string: [None] and the empty string are
    false and give [d]. *)
Definition or_else (s : option pystr) (d : pystr) : pystr :=
  match s with Some (c :: s') => c :: s' | _ => d end.

(** ["戦績ボード"], the default title of [board_start]. *)
Definition DEFAULT_TITLE : pystr := [25126; 32318; 12508; 12540; 12489]%N.

Definition set_message_id (bd : Board) (m : option Z) : Board :=
  {| title := title bd; player_a := player_a bd; player_b := player_b bd;
     rounds := rounds bd; message_id := m; COL_RND := COL_RND bd;
     COL_PLY := COL_PLY bd; zero_as_dash := zero_as_dash bd |}.
Definition set_rounds (bd : Board) (rs : list Round) : Board :=
  {| title := title bd; player_a := player_a bd; player_b := player_b bd;
     rounds := rs; message_id := message_id bd; COL_RND := COL_RND bd;
     COL_PLY := COL_PLY bd; zero_as_dash := zero_as_dash bd |}.
Definition set_player_a (bd : Board) (n : pystr) : Board :=
  {| title := title bd; player_a := n; player_b := player_b bd;
     rounds := rounds bd; message_id := message_id bd; COL_RND := COL_RND bd;
     COL_PLY := COL_PLY bd; zero_as_dash := zero_as_dash bd |}.
Definition set_player_b (bd : Board) (n : pystr) : Board :=
  {| title := title bd; player_a := player_a bd; player_b := n;
     rounds := rounds bd; message_id := message_id bd; COL_RND := COL_RND bd;
     COL_PLY := COL_PLY bd; zero_as_dash := zero_as_dash bd |}.
Definition set_title (bd : Board) (t : pystr) : Board :=
  {| title := t; player_a := player_a bd; player_b := player_b bd;
     rounds := rounds bd; message_id := message_id bd; COL_RND := COL_RND bd;
     COL_PLY := COL_PLY bd; zero_as_dash := zero_as_dash bd |}.
Definition set_zero_as_dash (bd : Board) (z : bool) : Board :=
  {| title := title bd; player_a := player_a bd; player_b := player_b bd;
     rounds := rounds bd; message_id := message_id bd; COL_RND := COL_RND bd;
     COL_PLY := COL_PLY bd; zero_as_dash := z |}.

(** [get_board]: [None] when the key is not in the file. *)
Definition get_board (k : string) : M (option Board) :=
  λ w, match data w !! k with
       | None => (Val None, w)
       | Some d => match from_dict d with
                   | Some bd => (Val (Some bd), w)
                   | None => (Exn, w)
                   end
       end.

(** [save_board]: reload, set the key, write the whole file. *)
Definition save_board (k : string) (bd : Board) : M unit :=
  λ w, (Val tt, {| data := <[k := to_dict bd]> (data w);
                   log := log w ++ [Save k (to_dict bd)] |}).

(** The block every mutating command ends with:
    [try: msg = fetch_message(board.message_id); msg.edit(content=board.render())]
    [except NotFound: msg = channel.send(board.render()); board.message_id = msg.id]. *)
Definition refresh (e : discord) (bd : Board) : M Board :=
  if fetch_found e (message_id bd)
  then text <~ lift (render bd);
       emit (EditMsg (message_id bd) text) ;;;
       ret bd
  else text <~ lift (render bd);
       emit (Send text) ;;;
       ret (set_message_id bd (Some (sent_id e))).

(** [board_start]. *)
Definition board_start (e : discord) (k : string)
    (pa pb : pystr) (t : option pystr) : M unit :=
  match _validate_name (Some pa), _validate_name (Some pb) with
  | Some va, Some vb =>
      existing <~ get_board k;
      if match existing with
         | Some ex => negb (bool_decide (rounds ex = [])) || truthy_id (message_id ex)
         | None => false
         end
      then emit (Followup MsgAlreadyExists)
      else
        let board := new_Board (or_else t DEFAULT_TITLE) va vb [] in
        text <~ lift (render board);
        emit (Send text) ;;;
        let board := set_message_id board (Some (sent_id e)) in
        save_board k board ;;;
        emit (Followup MsgCreated)
  | _, _ => emit (Followup MsgNamesNotAscii)
  end.

(** [board_add]. *)
Definition board_add (e : discord) (k : string) (x y : Z) : M unit :=
  board <~ get_board k;
  match board with
  | Some bd =>
      if negb (truthy_id (message_id bd))
      then emit (Followup MsgStartFirst)
      else
        let bd := set_rounds bd (rounds bd ++ [mkRound x y]) in
        bd <~ refresh e bd;
        save_board k bd ;;;
        emit (Followup (MsgAdded (length (rounds bd)) x y))
  | None => emit (Followup MsgStartFirst)
  end.

(** [board_edit]. *)
Definition board_edit (e : discord) (k : string)
    (round_no : Z) (x y : option Z) : M unit :=
  board <~ get_board k;
  match board with
  | Some bd =>
      if bool_decide (rounds bd = [])
      then emit (Followup MsgNoBoard)
      else if (round_no <? 1) || (round_no >? Z.of_nat (length (rounds bd)))
      then emit (Followup (MsgNoSuchRound round_no (length (rounds bd))))
      else
        let i := Z.to_nat (round_no - 1) in
        r <~ lift (rounds bd !! i);
        let r := match x with Some x' => mkRound x' (b r) | None => r end in
        let r := match y with Some y' => mkRound (a r) y' | None => r end in
        let bd := set_rounds bd (<[i := r]> (rounds bd)) in
        bd <~ refresh e bd;
        save_board k bd ;;;
        emit (Followup (MsgEdited round_no (a r) (b r)))
  | None => emit (Followup MsgNoBoard)
  end.

(** [board_rename]. The record is changed in memory field by field; a
    name that fails validation returns before anything is published or
    saved. *)
Definition board_rename (e : discord) (k : string)
    (pa pb t : option pystr) : M unit :=
  board <~ get_board k;
  match board with
  | None => emit (Followup MsgNoBoard)
  | Some bd =>
      match (match pa with
             | None => Some bd
             | Some _ => va ← _validate_name pa; Some (set_player_a bd va)
             end) with
      | None => emit (Followup MsgPlayerANotAscii)
      | Some bd =>
          match (match pb with
                 | None => Some bd
                 | Some _ => vb ← _validate_name pb; Some (set_player_b bd vb)
                 end) with
          | None => emit (Followup MsgPlayerBNotAscii)
          | Some bd =>
              let bd := match t with
                        | Some (c :: t') => set_title bd (c :: t')   (* [if title:] *)
                        | _ => bd
                        end in
              bd <~ refresh e bd;
              save_board k bd ;;;
              emit (Followup MsgRenamed)
          end
      end
  end.

Section ZeroStyle.
(** [str.lower] outside ASCII follows the Unicode tables of the
    interpreter (for one code point it also looks at the neighbouring
    characters); the table is not part of this program and is taken as
    a parameter: the lowering of code point [c] between [pre] and [post]. *)
Variable unicode_lower : pystr → N → pystr → pystr.

Definition lower_char (pre : pystr) (c : N) (post : pystr) : pystr :=
  if (65 <=? c)%N && (c <=? 90)%N then [(c + 32)%N]
  else if is_ascii_char c then [c]
  else unicode_lower pre c post.

Fixpoint lower_from (pre s : pystr) : pystr :=
  match s with
  | [] => []
  | c :: post => lower_char pre c post ++ lower_from (pre ++ [c]) post
  end.

(** [s.lower()]. *)
Definition lower (s : pystr) : pystr := lower_from [] s.

(** [board_zero_style]. *)
Definition board_zero_style (e : discord) (k : string) (style : pystr)
    : M unit :=
  board <~ get_board k;
  match board with
  | None => emit (Followup MsgNoBoard)
  | Some bd =>
      match (if bool_decide (lower style = lit "dash")
             then Some (set_zero_as_dash bd true)
             else if bool_decide (lower style = lit "zero")
             then Some (set_zero_as_dash bd false)
             else None) with
      | None => emit (Followup MsgBadStyle)
      | Some bd =>
          bd <~ refresh e bd;
          save_board k bd ;;;
          emit (Followup (MsgZeroStyle (zero_as_dash bd)))
      end
  end.
End ZeroStyle.


(** The record of scenario A: [start("Reo","Haruna","Finals")],
    [add(3,1)], [add(0,2)], published as message 7. *)
Definition scenario_A : Board :=
  {| title := lit "Finals"; player_a := lit "Reo"; player_b := lit "Haruna";
     rounds := [mkRound 3 1; mkRound 0 2]; message_id := Some 7;
     COL_RND := 5; COL_PLY := 10; zero_as_dash := true |}.

(** Rendering raises only on a negative format width. *)
Definition renderable (bd : Board) : Prop := 1 ≤ COL_RND bd ∧ 1 ≤ COL_PLY bd.

(** The key has a record, and it reads back as [bd]. *)
Definition active (w : world) (k : string) (bd : Board) : Prop :=
  ∃ d, data w !! k = Some d ∧ from_dict d = Some bd.

(** The key has no record. *)
Definition absent (w : world) (k : string) : Prop := data w !! k = None.

(** [hline()] without its newline. *)
Definition rule (bd : Board) : pystr :=
  lit "+" ++ repeat_char 45 (COL_RND bd) ++ lit "+"
    ++ repeat_char 45 (COL_PLY bd) ++ lit "+"
    ++ repeat_char 45 (COL_PLY bd) ++ lit "+".

(** The lines of [table], top to bottom, each without its newline. *)
Definition table_lines (bd : Board) : option (list pystr) :=
  h ← header_row bd;
  ls ← body_lines bd;
  t ← totals_row bd;
  d ← diff_row bd;
  Some ([rule bd; h; rule bd] ++ ls ++ [rule bd; t; d; rule bd]).

(** Every line followed by a newline. *)
Definition unlines (ls : list pystr) : pystr := concat (List.map (λ l, l ++ NL) ls).

(** The round numbers fit in 4 characters and every score text of the
    table (round scores, totals, signed differences) fits in 9. *)
Definition fits (bd : Board) : Prop :=
  (∀ i, 1 ≤ i ≤ Z.of_nat (length (rounds bd)) → (length (str_int i) ≤ 4)%nat)
  ∧ (∀ r, r ∈ rounds bd →
       (length (score_text bd (a r)) ≤ 9)%nat
       ∧ (length (score_text bd (b r)) ≤ 9)%nat)
  ∧ (length (score_text bd (totals bd).1) ≤ 9)%nat
  ∧ (length (score_text bd (totals bd).2) ≤ 9)%nat
  ∧ (length (fmt_plus_d ((totals bd).1 - (totals bd).2)) ≤ 9)%nat
  ∧ (length (fmt_plus_d (- ((totals bd).1 - (totals bd).2))) ≤ 9)%nat.

(** The record after [refresh]: unchanged when the message was found,
    pointing at the newly sent message otherwise. *)
Definition refreshed (e : discord) (bd : Board) : Board :=
  if fetch_found e (message_id bd) then bd
  else set_message_id bd (Some (sent_id e)).

(** What [refresh] publishes. *)
Definition refresh_event (e : discord) (bd : Board) (text : pystr) : event :=
  if fetch_found e (message_id bd) then EditMsg (message_id bd) text
  else Send text.

(** A Discord where the message is still there; a new one would get id 99. *)
Definition discord_found : discord :=
  {| fetch_found := λ _, true; sent_id := 99 |}.

(** A Discord where the message is gone; the new one gets id 99. *)
Definition discord_gone : discord :=
  {| fetch_found := λ _, false; sent_id := 99 |}.

(** A record that was never published: no rounds, no message id. *)
Definition unpublished : Board :=
  new_Board (lit "Finals") (lit "Reo") (lit "Haruna") [].

Definition KEY : string := "1:2:0".

(** A file holding scenario A, and one holding the unpublished record. *)
Definition world_A : world :=
  {| data := {[ KEY := to_dict scenario_A ]}; log := [] |}.
Definition world_unpublished : world :=
  {| data := {[ KEY := to_dict unpublished ]}; log := [] |}.
Definition world_empty : world := {| data := ∅; log := [] |}.

(** [board_add] answered "create a board first" and left the file alone. *)
Definition add_rejected (e : discord) (k : string) (x y : Z) (w : world) : Prop :=
  board_add e k x y w
  = (Val tt, {| data := data w; log := log w ++ [Followup MsgStartFirst] |}).

(** [s] is the lower-case ASCII word [t] with any of its letters
    possibly in upper case. *)
Definition capitalization_of (s t : pystr) : Prop :=
  Forall2 (λ c l, c = l ∨ (c + 32)%N = l) s t.

(** The letters of the two style tokens. *)
Definition STYLE_LETTERS : pystr := lit "dashzero".

(** A lowering table that leaves every code point outside ASCII alone. *)
Definition lower_identity : pystr → N → pystr → pystr := λ _ c _, [c].

(* ------------------------------------------------------------------ *)
(** ** The context key *)

(** What [_key] reads of the interaction: the guild id ([None] in a
    direct message) and the channel, which is a [discord.Thread] with
    its parent's id or any other channel. *)
Inductive channel : Type :=
| Thread (id parent_id : Z)
| Channel (id : Z).

Record interaction : Type := mkInteraction {
  guild_id : option Z;
  inter_channel : channel
}.

(** [str(x)] as the bytes of a dictionary key. *)
Definition key_int (x : Z) : string := NilZero.string_of_int (Z.to_int x).

(** [ctx.guild_id or 0]. *)
Definition guild_or_0 (g : option Z) : Z :=
  match g with
  | Some z => if z =? 0 then 0 else z
  | None => 0
  end.

Definition thread_id_of (c : channel) : Z :=
  match c with Thread id _ => id | Channel _ => 0 end.

Definition channel_id_of (c : channel) : Z :=
  match c with Thread _ parent => parent | Channel id => id end.

(** [_key]: ["{guild_id}:{channel_id}:{thread_id}"]. *)
Definition _key (ctx : interaction) : string :=
  (key_int (guild_or_0 (guild_id ctx)) ++ ":"
     ++ key_int (channel_id_of (inter_channel ctx)) ++ ":"
     ++ key_int (thread_id_of (inter_channel ctx)))%string.

(* ------------------------------------------------------------------ *)
(** ** The remaining commands *)

(** The followups of [board_undo], [board_show], [board_reset] and
    [board_delete]. *)
Inductive reply_more : Type :=
| MsgNothingToUndo       (* board_undo: no round to take back *)
| MsgUndone              (* board_undo: last round taken back *)
| MsgUpdated             (* board_show: the message was edited *)
| MsgReshown             (* board_show: the board was sent again *)
| MsgResetDone           (* board_reset *)
| MsgNoBoardHere         (* board_delete: no board in this channel *)
| MsgDeleted.            (* board_delete *)

(** The trace of the full command set: the events above, the deletion of
    the board's message, and the file written without a key. *)
Inductive event_more : Type :=
| Core (ev : event)
| DeleteMsg (id : option Z)      (* fetch_message(id), msg.delete() *)
| Remove (k : string)            (* del data[k]; _save_all(data) *)
| FollowupMore (r : reply_more).

Record xworld : Type := mkXWorld {
  xdata : gmap string dict;
  xlog : list event_more
}.

Definition X (A : Type) : Type := xworld → res A * xworld.

Definition xret {A} (x : A) : X A := λ w, (Val x, w).
Definition xbind {A B} (m : X A) (f : A → X B) : X B :=
  λ w, match m w with
       | (Val x, w') => f x w'
       | (Exn, w') => (Exn, w')
       end.
Definition xemit (ev : event_more) : X unit :=
  λ w, (Val tt, {| xdata := xdata w; xlog := xlog w ++ [ev] |}).

(** A computation of the commands above, run on the file of the larger
    world; what it traced is appended. *)
Definition embed {A} (m : M A) : X A :=
  λ w, let r := m {| data := xdata w; log := [] |} in
       (r.1, {| xdata := data r.2; xlog := xlog w ++ List.map Core (log r.2) |}).

Notation "x <~~ m ; f" := (xbind m (λ x, f))
  (at level 20, m at level 100, f at level 200, only parsing).
Notation "m ;;;; f" := (xbind m (λ _, f))
  (at level 100, f at level 200, right associativity, only parsing).

(** [board.rounds.pop()] on a non-empty list. *)
Definition pop (rs : list Round) : list Round := take (length rs - 1) rs.

(** [board_undo]. *)
Definition board_undo (e : discord) (k : string) : X unit :=
  board <~~ embed (get_board k);
  match board with
  | Some bd =>
      if bool_decide (rounds bd = [])
      then xemit (FollowupMore MsgNothingToUndo)
      else
        let bd := set_rounds bd (pop (rounds bd)) in
        bd <~~ embed (refresh e bd);
        embed (save_board k bd) ;;;;
        xemit (FollowupMore MsgUndone)
  | None => xemit (FollowupMore MsgNothingToUndo)
  end.

(** [board_show]: edit the message when the record has an id and the
    message is found; otherwise send the board again and save its id. *)
Definition board_show (e : discord) (k : string) : X unit :=
  board <~~ embed (get_board k);
  match board with
  | None => xemit (Core (Followup MsgNoBoard))
  | Some bd =>
      if truthy_id (message_id bd) && fetch_found e (message_id bd)
      then text <~~ embed (lift (render bd));
           xemit (Core (EditMsg (message_id bd) text)) ;;;;
           xemit (FollowupMore MsgUpdated)
      else text <~~ embed (lift (render bd));
           xemit (Core (Send text)) ;;;;
           let bd := set_message_id bd (Some (sent_id e)) in
           embed (save_board k bd) ;;;;
           xemit (FollowupMore MsgReshown)
  end.

(** [board_reset]. *)
Definition board_reset (e : discord) (k : string) : X unit :=
  board <~~ embed (get_board k);
  match board with
  | None => xemit (Core (Followup MsgNoBoard))
  | Some bd =>
      let bd := set_rounds bd [] in
      bd <~~ embed (refresh e bd);
      embed (save_board k bd) ;;;;
      xemit (FollowupMore MsgResetDone)
  end.

(** The end of [board_delete]: reload, drop the key if it is there,
    write the file. *)
Definition remove_key (k : string) : X unit :=
  λ w, match xdata w !! k with
       | Some _ => (Val tt, {| xdata := delete k (xdata w);
                               xlog := xlog w ++ [Remove k] |})
       | None => (Val tt, w)
       end.

(** [board_delete]. *)
Definition board_delete (e : discord) (k : string) : X unit :=
  board <~~ embed (get_board k);
  match board with
  | None => xemit (FollowupMore MsgNoBoardHere)
  | Some bd =>
      (if truthy_id (message_id bd) && fetch_found e (message_id bd)
       then xemit (DeleteMsg (message_id bd))
       else xret tt) ;;;;
      remove_key k ;;;;
      xemit (FollowupMore MsgDeleted)
  end.

(** The commands with their arguments. *)
Inductive command : Type :=
| CStart (pa pb : pystr) (t : option pystr)
| CAdd (x y : Z)
| CEdit (round_no : Z) (x y : option Z)
| CUndo
| CShow
| CRename (pa pb t : option pystr)
| CReset
| CDelete
| CZeroStyle (style : pystr).

Section Exec.
Variable unicode_lower : pystr → N → pystr → pystr.

(** One command in one context. *)
Definition exec (e : discord) (k : string) (c : command) : X unit :=
  match c with
  | CStart pa pb t => embed (board_start e k pa pb t)
  | CAdd x y => embed (board_add e k x y)
  | CEdit n x y => embed (board_edit e k n x y)
  | CUndo => board_undo e k
  | CShow => board_show e k
  | CRename pa pb t => embed (board_rename e k pa pb t)
  | CReset => board_reset e k
  | CDelete => board_delete e k
  | CZeroStyle style => embed (board_zero_style unicode_lower e k style)
  end.

(** A session: commands one after the other, each with what Discord
    answers and the context it is given in. Every command is handled on
    its own: whatever its outcome, the next one runs on the file and
    trace it left. *)
Fixpoint exec_all (cs : list (discord * string * command)) (w : xworld)
    : xworld :=
  match cs with
  | [] => w
  | (e, k, c) :: cs' => exec_all cs' (exec e k c w).2
  end.
End Exec.

(** A stored name: ASCII, at most 8 characters. *)
Definition valid_name (n : pystr) : Prop :=
  _is_ascii n = true ∧ (length n ≤ 8)%nat.

(** A record as the commands write it: default layout, stored names,
    and the id of a message. *)
Definition good_board (bd : Board) : Prop :=
  COL_RND bd = 5 ∧ COL_PLY bd = 10
  ∧ valid_name (player_a bd) ∧ valid_name (player_b bd)
  ∧ is_Some (message_id bd).

(** Every entry of the file is [to_dict] of such a record. *)
Definition good_store (m : gmap string dict) : Prop :=
  ∀ k d, m !! k = Some d → ∃ bd, d = to_dict bd ∧ good_board bd.

(** A computation that touches no other key than [k] and only appends
    to the trace. *)
Definition local_to {A} (k : string) (m : M A) : Prop :=
  ∀ w, (∀ k', k' ≠ k → data (m w).2 !! k' = data w !! k')
       ∧ ∃ evs, log (m w).2 = log w ++ evs.

Definition xlocal_to {A} (k : string) (m : X A) : Prop :=
  ∀ w, (∀ k', k' ≠ k → xdata (m w).2 !! k' = xdata w !! k')
       ∧ ∃ evs, xlog (m w).2 = xlog w ++ evs.

(** No [":"] among the characters of [s]. *)
Definition colon_free (s : string) : Prop :=
  ∀ c, In c (list_ascii_of_string s) → c ≠ ":"%char.

(** What a command answers when its context has no record; [board_start]
    is the one command that does not refuse then. *)
Definition refusal (c : command) : option event_more :=
  match c with
  | CStart _ _ _ => None
  | CAdd _ _ => Some (Core (Followup MsgStartFirst))
  | CUndo => Some (FollowupMore MsgNothingToUndo)
  | CDelete => Some (FollowupMore MsgNoBoardHere)
  | CEdit _ _ _ | CShow | CRename _ _ _ | CReset | CZeroStyle _ =>
      Some (Core (Followup MsgNoBoard))
  end.

(** The file has a record under [k], and it reads back as [bd]. *)
Definition stored (m : gmap string dict) (k : string) (bd : Board) : Prop :=
  ∃ d, m !! k = Some d ∧ from_dict d = Some bd.

(** On a good file the computation returns (it does not raise), leaves a
    good file, and its result satisfies [Q]. *)
Definition keeps_good {A} (m : M A) (Q : A → Prop) : Prop :=
  ∀ w, good_store (data w) →
    ∃ x w', m w = (Val x, w') ∧ good_store (data w') ∧ Q x.

Definition xkeeps_good {A} (m : X A) (Q : A → Prop) : Prop :=
  ∀ w, good_store (xdata w) →
    ∃ x w', m w = (Val x, w') ∧ good_store (xdata w') ∧ Q x.

(** The empty file with an empty trace. *)
Definition xworld_empty : xworld := {| xdata := ∅; xlog := [] |}.

(** The lines of a text: the pieces ended by a line feed, and what
    follows the last line feed when something does. *)
Fixpoint lines_from (cur s : pystr) : list pystr :=
  match s with
  | [] => match cur with [] => [] | _ => [cur] end
  | c :: s' =>
      if (c =? 10)%N then cur :: lines_from [] s'
      else lines_from (cur ++ [c]) s'
  end.

Definition lines_of (s : pystr) : list pystr := lines_from [] s.

(** No line feed in [s]. *)
Definition nl_free (s : pystr) : Prop := Forall (λ c, c ≠ 10%N) s.

(** The record that [board_start] stores for the names ["a\nb"] and
    ["Haruna"] (the first has a line feed in it), published as message 99. *)
Definition newline_name : Board :=
  {| title := DEFAULT_TITLE; player_a := [97; 10; 98]%N;
     player_b := lit "Haruna"; rounds := []; message_id := Some 99;
     COL_RND := 5; COL_PLY := 10; zero_as_dash := true |}.

(** A record whose player column is 0 wide. *)
Definition zero_width : Board :=
  {| title := lit "Finals"; player_a := lit "Reo"; player_b := lit "Haruna";
     rounds := []; message_id := Some 7;
     COL_RND := 5; COL_PLY := 0; zero_as_dash := true |}.

(* ================================================================== *)
(** * Properties *)

(** Membership in a list that is written out. *)
Ltac in_list :=
  apply list_elem_of_In; cbn; repeat (first [left; reflexivity | right]).

(** ** Strings *)

Lemma length_rjust w s : length (rjust w s) = (w `max` length s)%nat.
Proof. unfold rjust. rewrite length_app, length_replicate. lia. Qed.

Lemma length_rjust_fits w s :
  (length s ≤ w)%nat → length (rjust w s) = w.
Proof. intros. rewrite length_rjust. lia. Qed.

Lemma length_repeat_char c n : 0 ≤ n → length (repeat_char c n) = Z.to_nat n.
Proof. intros. unfold repeat_char. by rewrite length_replicate. Qed.

Lemma is_ascii_spec s : _is_ascii s = true ↔ ∀ c, c ∈ s → (c < 128)%N.
Proof.
  unfold _is_ascii, is_ascii_char. rewrite forallb_forall. split.
  - intros H c Hc. apply N.ltb_lt, H. by apply list_elem_of_In.
  - intros H c Hc. apply N.ltb_lt, H. by apply list_elem_of_In.
Qed.

Lemma not_ascii_spec s : _is_ascii s = false ↔ ∃ c, c ∈ s ∧ (128 ≤ c)%N.
Proof.
  split.
  - intros H. induction s as [|c s IH]; [done|].
    cbn in H. apply andb_false_iff in H as [H|H].
    + exists c. split; [left|]. unfold is_ascii_char in H.
      by apply N.ltb_ge in H.
    + destruct (IH H) as (c' & ? & ?). exists c'. split; [by right|done].
  - intros (c & Hc & Hge). destruct (_is_ascii s) eqn:E; [|done].
    pose proof (proj1 (is_ascii_spec s) E c Hc). lia.
Qed.

(** ** C3: the name validator *)

(** C3. [_validate_name] gives [None] for [None]; [None] for a name with
    any code point outside ASCII, whatever its length; and otherwise
    exactly the first 8 characters (a long ASCII name is cut, not
    refused). As a function it is total and deterministic: every string
    falls in one of the last two cases. *)
Theorem validate_name_spec :
  _validate_name None = None
  ∧ (∀ n : pystr, (∃ c, c ∈ n ∧ (128 ≤ c)%N) → _validate_name (Some n) = None)
  ∧ (∀ n : pystr, (∀ c, c ∈ n → (c < 128)%N) →
       _validate_name (Some n) = Some (take 8 n)
       ∧ (length (take 8 n) ≤ 8)%nat
       ∧ (length n ≤ 8 → take 8 n = n)%nat)
  ∧ (∀ n : pystr, _validate_name (Some n) = None
                  ∨ _validate_name (Some n) = Some (take 8 n)).
Proof.
  split; [done|]. split; [|split].
  - intros n Hn. apply not_ascii_spec in Hn. cbn. by rewrite Hn.
  - intros n Hn. apply is_ascii_spec in Hn. cbn. rewrite Hn. cbn.
    split; [done|]. split.
    + rewrite length_take. lia.
    + intros. by apply take_ge.
  - intros n. cbn. destruct (_is_ascii n); cbn; auto.
Qed.

(** An over-long ASCII name is cut to 8; a Japanese name is refused. *)
Lemma validate_name_spec_witness :
  _validate_name (Some (lit "Player0123")) = Some (lit "Player01")
  ∧ _validate_name (Some [26085; 26412; 35486]%N) = None.
Proof.
  destruct validate_name_spec as (_ & Hbad & Hok & _). split.
  - refine (proj1 (Hok (lit "Player0123") _)).
    intros c Hc. apply (proj1 (is_ascii_spec (lit "Player0123"))); [reflexivity|done].
  - apply Hbad. exists 26085%N. split; [left|lia].
Defined.

Lemma validate_name_cases (n : pystr) :
  _validate_name (Some n) = None
  ∨ _validate_name (Some n) = Some (take 8 n).
Proof. cbn. destruct (_is_ascii n); cbn; auto. Qed.

(** ** C8: persistence round trip *)

Lemma Round_of_asdict r : Round_of_dict (Round_asdict r) = Some r.
Proof. by destruct r. Qed.

Lemma mapM_Round_of_asdict rs :
  mapM Round_of_dict (List.map Round_asdict rs) = Some rs.
Proof.
  induction rs as [|r rs IH]; [done|].
  change (mapM Round_of_dict (List.map Round_asdict (r :: rs)))
    with (y ← Round_of_dict (Round_asdict r);
          k ← mapM Round_of_dict (List.map Round_asdict rs); Some (y :: k)).
  by rewrite Round_of_asdict, IH.
Qed.

Lemma from_dict_to_dict (bd : Board) : from_dict (to_dict bd) = Some bd.
Proof.
  destruct bd as [t pa pb rs mid cr cp zd].
  unfold from_dict, to_dict. cbn -[mapM Round_of_dict Round_asdict].
  rewrite mapM_Round_of_asdict. cbn. by destruct mid.
Qed.

(** C8. Reading back what [to_dict] wrote gives the same record, field
    for field: title, both names, the rounds in order, the message id,
    both column widths and the zero style; and after [save_board] under
    a key, [get_board] on that key returns the record that was saved,
    whatever the file held before. *)
Theorem save_load_round_trip (bd : Board) :
  from_dict (to_dict bd) = Some bd
  ∧ ∀ (k : string) (w : world),
      (get_board k (save_board k bd w).2).1 = Val (Some bd).
Proof.
  split; [apply from_dict_to_dict|].
  intros k w. unfold get_board, save_board. cbn.
  by rewrite lookup_insert_eq, from_dict_to_dict.
Qed.

(** ** Rendering *)

Lemma fmt_right_ok w s : 0 ≤ w → fmt_right w s = Some (rjust (Z.to_nat w) s).
Proof. intros. unfold fmt_right. by rewrite (proj2 (Z.ltb_ge w 0)). Qed.

Lemma hline_rule bd : hline bd = rule bd ++ NL.
Proof. unfold hline, rule. by rewrite <- !app_assoc. Qed.

Lemma length_row c1 c2 c3 :
  length (row c1 c2 c3) = (4 + length c1 + length c2 + length c3)%nat.
Proof. unfold row. rewrite !length_app. cbn. lia. Qed.

Lemma length_fmt_name n : length (fmt_name n) = 10%nat.
Proof.
  unfold fmt_name, slice_to. rewrite !length_app, length_rjust_fits; [done|].
  rewrite length_take. lia.
Qed.

Section StandardLayout.
Variable bd : Board.
Hypothesis Hrnd : COL_RND bd = 5.
Hypothesis Hply : COL_PLY bd = 10.

Lemma fmt_rnd_std text : fmt_rnd bd text = Some (rjust 4 text ++ lit " ").
Proof. unfold fmt_rnd. rewrite Hrnd. done. Qed.

Lemma fmt_score_val_std x :
  fmt_score_val bd x = Some (rjust 9 (score_text bd x) ++ lit " ").
Proof. unfold fmt_score_val. rewrite Hply. done. Qed.

Lemma fmt_score_signed_std x :
  fmt_score_signed bd x = Some (rjust 9 (fmt_plus_d x) ++ lit " ").
Proof. unfold fmt_score_signed. rewrite Hply. done. Qed.

Lemma length_rule_std : length (rule bd) = 29%nat.
Proof. unfold rule. rewrite Hrnd, Hply. done. Qed.

Lemma length_cell w s : (length s ≤ w)%nat → length (rjust w s ++ lit " ") = S w.
Proof. intros. rewrite length_app, length_rjust_fits by done. cbn. lia. Qed.

Lemma header_row_std :
  ∃ h, header_row bd = Some h ∧ length h = 29%nat.
Proof.
  unfold header_row. rewrite fmt_rnd_std. eexists. split; [done|].
  rewrite length_row, !length_fmt_name, length_cell; [lia|]. cbn. lia.
Qed.

Lemma body_lines_from_std rs : ∀ i,
  (∀ j, i ≤ j < i + Z.of_nat (length rs) → (length (str_int j) ≤ 4)%nat) →
  (∀ r, r ∈ rs → (length (score_text bd (a r)) ≤ 9)%nat
                 ∧ (length (score_text bd (b r)) ≤ 9)%nat) →
  ∃ ls, body_lines_from bd i rs = Some ls
        ∧ length ls = length rs
        ∧ Forall (λ l, length l = 29%nat) ls.
Proof.
  induction rs as [|r rs IH]; intros i Hi Hr.
  - exists []. by repeat split.
  - destruct (IH (i + 1)) as (ls & Hls & Hlen & Hall).
    { intros j Hj. apply Hi. cbn [length]. lia. }
    { intros r' Hr'. apply Hr. by right. }
    destruct (Hr r) as [Ha Hb]; [left|].
    cbn [body_lines_from]. unfold body_line.
    rewrite fmt_rnd_std, !fmt_score_val_std, Hls. cbn -[row rjust lit].
    eexists. split; [done|]. split; [cbn; by rewrite Hlen|].
    constructor; [|done].
    rewrite length_row, !length_cell; [lia|done..|].
    apply Hi. cbn [length]. lia.
Qed.

Lemma totals_row_std :
  (length (score_text bd (totals bd).1) ≤ 9)%nat →
  (length (score_text bd (totals bd).2) ≤ 9)%nat →
  ∃ t, totals_row bd = Some t ∧ length t = 29%nat.
Proof.
  intros H1 H2. unfold totals_row. destruct (totals bd) as [ta tb].
  rewrite fmt_rnd_std, !fmt_score_val_std. cbn -[row rjust lit].
  eexists. split; [done|].
  rewrite length_row, !length_cell; [lia|done..|]. cbn. lia.
Qed.

Lemma diff_row_std :
  (length (fmt_plus_d ((totals bd).1 - (totals bd).2)) ≤ 9)%nat →
  (length (fmt_plus_d (- ((totals bd).1 - (totals bd).2))) ≤ 9)%nat →
  ∃ d, diff_row bd = Some d ∧ length d = 29%nat.
Proof.
  intros H1 H2. unfold diff_row. destruct (totals bd) as [ta tb].
  rewrite fmt_rnd_std, !fmt_score_signed_std. cbn -[row rjust lit].
  eexists. split; [done|].
  rewrite length_row, !length_cell; [lia|done..|]. cbn. lia.
Qed.

(** With equal totals both cells of the Δ line read [+0]. *)
Lemma diff_row_equal_totals :
  (totals bd).1 = (totals bd).2 →
  diff_row bd = Some (row (lit "   " ++ DELTA ++ lit " ")
                          (lit "       +0 ") (lit "       +0 ")).
Proof.
  intros Heq. unfold diff_row. destruct (totals bd) as [ta tb].
  cbn in Heq. subst tb. rewrite Z.sub_diag.
  rewrite fmt_rnd_std, !fmt_score_signed_std. done.
Qed.
End StandardLayout.

Lemma body_of_unlines ls : body_of ls = unlines ls.
Proof.
  unfold unlines. destruct ls as [|l ls]; [done|].
  cbn [body_of]. revert l. induction ls as [|l' ls IH]; intros l.
  - cbn. by rewrite app_nil_r.
  - change (join_nl (l :: l' :: ls)) with (l ++ NL ++ join_nl (l' :: ls)).
    rewrite <- !app_assoc, IH. cbn. by rewrite <- !app_assoc.
Qed.

(** [table] is its lines, each ended by a newline. *)
Lemma table_unlines bd : table bd = unlines <$> table_lines bd.
Proof.
  unfold table, table_lines, footer.
  destruct (header_row bd) as [h|]; [|done].
  destruct (body_lines bd) as [ls|]; [|done].
  destruct (totals_row bd) as [t|]; [|done].
  destruct (diff_row bd) as [d|]; [|done].
  cbn -[hline rule unlines body_of].
  f_equal. rewrite !hline_rule, body_of_unlines. unfold unlines.
  cbn -[rule]. rewrite List.map_app, concat_app. cbn -[rule].
  rewrite <- !app_assoc. cbn -[rule]. do 8 f_equal.
  by rewrite <- app_assoc.
Qed.

(** ** C5: the width of the table *)

(** The strings the table is put together from: with the layout
    constants 5 and 10, round numbers of at most 4 characters and score
    texts of at most 9, each of them is 29 characters long. *)
Lemma table_rows_width (bd : Board) :
  COL_RND bd = 5 → COL_PLY bd = 10 → fits bd →
  ∃ h ls t d,
    header_row bd = Some h ∧ body_lines bd = Some ls
    ∧ totals_row bd = Some t ∧ diff_row bd = Some d
    ∧ length ls = length (rounds bd)
    ∧ table bd
      = Some (unlines ([rule bd; h; rule bd] ++ ls ++ [rule bd; t; d; rule bd]))
    ∧ Forall (λ l, Z.of_nat (length l) = COL_RND bd + 2 * COL_PLY bd + 4
                   ∧ length l = 29%nat)
        ([rule bd; h; rule bd] ++ ls ++ [rule bd; t; d; rule bd]).
Proof.
  intros Hrnd Hply (Hnum & Hr & Hta & Htb & Hd1 & Hd2).
  destruct (header_row_std bd Hrnd) as (h & Hh & Lh).
  destruct (body_lines_from_std bd Hrnd Hply (rounds bd) 1) as (ls & Hls & Lls & Als).
  { intros j Hj. apply Hnum. lia. }
  { done. }
  destruct (totals_row_std bd Hrnd Hply Hta Htb) as (t & Ht & Lt).
  destruct (diff_row_std bd Hrnd Hply Hd1 Hd2) as (d & Hd & Ld).
  pose proof (length_rule_std bd Hrnd Hply) as Lr.
  exists h, ls, t, d. repeat split; try done.
  - rewrite table_unlines. unfold table_lines.
    fold (body_lines bd) in Hls. by rewrite Hh, Hls, Ht, Hd.
  - rewrite Hrnd, Hply.
    assert (∀ l : pystr, length l = 29%nat →
              Z.of_nat (length l) = 5 + 2 * 10 + 4 ∧ length l = 29%nat)
      as Hw by (intros l Hl; rewrite Hl; done).
    repeat first [apply Forall_cons; split; [by apply Hw|]
                 | apply Forall_app; split].
    + eapply Forall_impl; [exact Als|]. intros l Hl. by apply Hw.
    + repeat (apply Forall_cons; split; [by apply Hw|]). apply Forall_nil_2.
Qed.

(** *** Line feeds *)

(** A text that is written out holds no line feed. *)
Ltac nl_lit :=
  unfold nl_free; vm_compute;
  repeat (apply List.Forall_cons; [discriminate|]); apply List.Forall_nil.

Lemma lines_from_line (l : pystr) : ∀ cur rest,
  nl_free l →
  lines_from cur (l ++ NL ++ rest) = (cur ++ l) :: lines_from [] rest.
Proof.
  induction l as [|c l IH]; intros cur rest Hl.
  - cbn. by rewrite app_nil_r.
  - apply Forall_cons in Hl as [Hc Hl]. cbn [app lines_from].
    rewrite (proj2 (N.eqb_neq c 10) Hc), IH by done.
    by rewrite <- app_assoc.
Qed.

(** Splitting at the line feeds gives back the lines a text was put
    together from, when none of them holds a line feed. *)
Lemma lines_of_unlines (ls : list pystr) :
  Forall nl_free ls → lines_of (unlines ls) = ls.
Proof.
  unfold lines_of, unlines. induction ls as [|l ls IH]; intros Hls; [done|].
  apply Forall_cons in Hls as [Hl Hls]. cbn [List.map concat].
  rewrite <- app_assoc, lines_from_line by done. cbn. by rewrite IH.
Qed.

Lemma nl_free_app (s t : pystr) : nl_free s → nl_free t → nl_free (s ++ t).
Proof. intros. by apply Forall_app. Qed.

Lemma nl_free_replicate (n : nat) (c : N) : c ≠ 10%N → nl_free (replicate n c).
Proof. intros Hc. apply Forall_forall. intros x Hx. by apply elem_of_replicate in Hx as [-> _]. Qed.

Lemma nl_free_rjust (w : nat) (s : pystr) : nl_free s → nl_free (rjust w s).
Proof. intros. apply nl_free_app; [by apply nl_free_replicate | done]. Qed.

Lemma nl_free_digits (d : uint) : nl_free (lit (NilEmpty.string_of_uint d)).
Proof. induction d; cbn; try constructor; done. Qed.

Lemma nl_free_str_int (x : Z) : nl_free (str_int x).
Proof.
  unfold str_int.
  assert (∀ d, nl_free (lit (NilZero.string_of_uint d))) as Hu.
  { intros d. destruct d; try apply nl_free_digits. by repeat constructor. }
  destruct (Z.to_int x) as [d | d]; cbn [NilZero.string_of_int]; [apply Hu|].
  change (lit (String "-" ?s)) with (45%N :: lit s). constructor; [done | apply Hu].
Qed.

Lemma nl_free_fmt_plus_d (x : Z) : nl_free (fmt_plus_d x).
Proof.
  unfold fmt_plus_d. apply nl_free_app; [|apply nl_free_digits].
  destruct (x <? 0); by repeat constructor.
Qed.

Lemma nl_free_score_text (bd : Board) (x : Z) : nl_free (score_text bd x).
Proof.
  unfold score_text. destruct (x =? 0); [|apply nl_free_str_int].
  destruct (zero_as_dash bd); by repeat constructor.
Qed.

Lemma nl_free_fmt_name (n : pystr) : nl_free n → nl_free (fmt_name n).
Proof.
  intros Hn. unfold fmt_name, slice_to.
  apply nl_free_app; [by repeat constructor|].
  apply nl_free_app; [|by repeat constructor].
  apply nl_free_rjust. apply Forall_forall. intros c Hc.
  apply (subseteq_take 8) in Hc. unfold pystr in *.
  apply list_elem_of_filter in Hc as [_ Hc].
  by apply (proj1 (Forall_forall _ _) Hn).
Qed.

Lemma nl_free_cell (w : nat) (s : pystr) : nl_free s → nl_free (rjust w s ++ lit " ").
Proof. intros. apply nl_free_app; [by apply nl_free_rjust | by repeat constructor]. Qed.

Lemma nl_free_row (c1 c2 c3 : pystr) :
  nl_free c1 → nl_free c2 → nl_free c3 → nl_free (row c1 c2 c3).
Proof.
  intros. unfold row.
  repeat (apply nl_free_app; [by repeat constructor|]; apply nl_free_app; [done|]).
  by repeat constructor.
Qed.

Lemma nl_free_rule (bd : Board) : nl_free (rule bd).
Proof.
  unfold rule, repeat_char.
  repeat (apply nl_free_app; [by repeat constructor|];
          apply nl_free_app; [by apply nl_free_replicate|]).
  by repeat constructor.
Qed.

Lemma nl_free_body_lines (bd : Board) (rs : list Round) : ∀ i ls,
  COL_RND bd = 5 → COL_PLY bd = 10 →
  body_lines_from bd i rs = Some ls → Forall nl_free ls.
Proof.
  induction rs as [|r rs IH]; intros i ls Hr Hp.
  - intros [= <-]. constructor.
  - cbn [body_lines_from]. unfold body_line.
    rewrite fmt_rnd_std, !fmt_score_val_std by done. cbn -[row rjust lit].
    destruct (body_lines_from bd (i + 1) rs) as [ls'|] eqn:E; [|done].
    cbn -[row rjust lit]. intros [= <-]. constructor; [|by eapply IH].
    apply nl_free_row; apply nl_free_cell;
      [apply nl_free_str_int | apply nl_free_score_text..].
Qed.

(** C5, as the code has it. With the layout constants 5 and 10, round
    numbers of at most 4 characters, score texts of at most 9 and no
    line feed in either name, the table text, split at its line feeds,
    is rule, header, rule, one row per round, rule, totals row,
    difference row, rule, and every one of these lines is
    [COL_RND + 2 * COL_PLY + 4 = 29] characters long; [render] wraps
    that text. *)
Theorem table_text_lines_width (bd : Board) :
  COL_RND bd = 5 → COL_PLY bd = 10 → fits bd →
  nl_free (player_a bd) → nl_free (player_b bd) →
  ∃ text h ls t d,
    table bd = Some text
    ∧ render bd
      = Some (lit "**" ++ title_line bd ++ lit "**" ++ NL ++ lit "```" ++ NL
                ++ text ++ lit "```")
    ∧ header_row bd = Some h ∧ body_lines bd = Some ls
    ∧ totals_row bd = Some t ∧ diff_row bd = Some d
    ∧ lines_of text = [rule bd; h; rule bd] ++ ls ++ [rule bd; t; d; rule bd]
    ∧ length (lines_of text) = (length (rounds bd) + 7)%nat
    ∧ Forall (λ l, Z.of_nat (length l) = COL_RND bd + 2 * COL_PLY bd + 4
                   ∧ length l = 29%nat)
        (lines_of text).
Proof.
  intros Hrnd Hply Hfits Hna Hnb.
  destruct (table_rows_width bd Hrnd Hply Hfits)
    as (h & ls & t & d & Hh & Hls & Ht & Hd & Hlen & Htable & Hall).
  assert (Forall nl_free ([rule bd; h; rule bd] ++ ls ++ [rule bd; t; d; rule bd]))
    as Hfree.
  { assert (nl_free h) as Fh.
    { unfold header_row in Hh. rewrite fmt_rnd_std in Hh by done.
      cbn -[row rjust lit fmt_name] in Hh. injection Hh as <-.
      apply nl_free_row; [nl_lit | by apply nl_free_fmt_name..]. }
    assert (nl_free t) as Ft.
    { unfold totals_row in Ht. destruct (totals bd) as [ta tb].
      rewrite fmt_rnd_std, !fmt_score_val_std in Ht by done.
      cbn -[row rjust lit score_text] in Ht. injection Ht as <-.
      apply nl_free_row;
        [nl_lit | apply nl_free_cell, nl_free_score_text..]. }
    assert (nl_free d) as Fd.
    { unfold diff_row in Hd. destruct (totals bd) as [ta tb].
      rewrite fmt_rnd_std, !fmt_score_signed_std in Hd by done.
      cbn -[row rjust lit fmt_plus_d] in Hd. injection Hd as <-.
      apply nl_free_row;
        [nl_lit | apply nl_free_cell, nl_free_fmt_plus_d..]. }
    pose proof (nl_free_rule bd) as Fr.
    pose proof (nl_free_body_lines bd (rounds bd) 1 ls Hrnd Hply Hls) as Fls.
    repeat first [apply Forall_cons; split; [done|] | apply Forall_app; split];
      [done|].
    by repeat (apply Forall_cons; split; [done|]). }
  eexists _, h, ls, t, d. split; [exact Htable|].
  rewrite (lines_of_unlines _ Hfree).
  split; [unfold render; by rewrite Htable|].
  repeat (split; [done|]). split; [|done].
  rewrite !length_app, Hlen. cbn. lia.
Qed.

(** Scenario A renders as nine lines of 29 characters. *)
Lemma table_text_lines_width_witness :
  ∃ text h ls t d,
    table scenario_A = Some text
    ∧ render scenario_A
      = Some (lit "**" ++ title_line scenario_A ++ lit "**" ++ NL
                ++ lit "```" ++ NL ++ text ++ lit "```")
    ∧ header_row scenario_A = Some h ∧ body_lines scenario_A = Some ls
    ∧ totals_row scenario_A = Some t ∧ diff_row scenario_A = Some d
    ∧ lines_of text = [rule scenario_A; h; rule scenario_A] ++ ls
                        ++ [rule scenario_A; t; d; rule scenario_A]
    ∧ length (lines_of text) = (2 + 7)%nat
    ∧ Forall (λ l, Z.of_nat (length l) = 5 + 2 * 10 + 4 ∧ length l = 29%nat)
        (lines_of text).
Proof.
  apply (table_text_lines_width scenario_A); [reflexivity | reflexivity | | |].
  - split; [|split; [|repeat split; vm_compute; lia]].
    + intros i Hi. cbn in Hi.
      assert (i = 1 ∨ i = 2) as [-> | ->] by lia; vm_compute; lia.
    + intros r Hr.
      apply elem_of_cons in Hr as [-> | Hr]; [split; vm_compute; lia|].
      apply elem_of_cons in Hr as [-> | Hr]; [split; vm_compute; lia|].
      by apply elem_of_nil in Hr.
  - by repeat constructor.
  - by repeat constructor.
Defined.

(** C5 as stated fails: the name ["a\nb"] passes validation and
    [board_start] stores it; the record has the constants 5 and 10, no
    round and score texts of one or two characters, and its table has
    lines of 14 characters where the header is broken in two. *)
Lemma table_lines_newline_name :
  _validate_name (Some [97; 10; 98]%N) = Some [97; 10; 98]%N
  ∧ data (board_start discord_gone KEY [97; 10; 98]%N (lit "Haruna") None
            world_empty).2 !! KEY = Some (to_dict newline_name)
  ∧ COL_RND newline_name = 5 ∧ COL_PLY newline_name = 10
  ∧ fits newline_name
  ∧ ∃ text, table newline_name = Some text
            ∧ List.map length (lines_of text)
              = [29; 14; 14; 29; 29; 29; 29; 29]%nat
            ∧ ¬ Forall (λ l, length l = 29%nat) (lines_of text).
Proof.
  split; [reflexivity|]. split; [vm_compute; reflexivity|].
  split; [reflexivity|]. split; [reflexivity|]. split.
  - split; [|split; [|repeat split; vm_compute; lia]].
    + intros i Hi. cbn in Hi. lia.
    + intros r Hr. by apply elem_of_nil in Hr.
  - eexists. split; [vm_compute; reflexivity|].
    match goal with
    | |- List.map length (lines_of ?t) = ?ns ∧ _ =>
        assert (List.map length (lines_of t) = ns) as E
          by (vm_compute; reflexivity)
    end.
    split; [exact E|]. intros H.
    apply (proj2 (List.Forall_map length (λ n, n = 29%nat) _)) in H.
    rewrite E in H.
    inversion H as [|? ? _ H']. inversion H' as [|? ? Hbad _]. discriminate.
Qed.

(** ** C1: the difference row when the totals are equal *)

(** C1. In scenario A the totals are (3, 3); the source formats [+diff]
    and [-diff] with [{x:+d}], and since [-0] is the int [0] both cells
    of the Δ line come out as [+0] right-justified in 9 characters plus
    one space: the right cell is not [-0]. *)
Theorem diff_row_scenario_A :
  totals scenario_A = (3, 3)
  ∧ fmt_score_signed scenario_A (3 - 3) = Some (lit "       +0 ")
  ∧ fmt_score_signed scenario_A (- (3 - 3)) = Some (lit "       +0 ")
  ∧ fmt_score_signed scenario_A (- (3 - 3)) ≠ Some (lit "       -0 ")
  ∧ diff_row scenario_A
    = Some (row (lit "   " ++ DELTA ++ lit " ")
                (lit "       +0 ") (lit "       +0 ")).
Proof.
  split; [reflexivity|]. split; [reflexivity|]. split; [reflexivity|].
  split; [discriminate|]. by apply diff_row_equal_totals.
Qed.

(** ** Running commands *)

Lemma fmt_rnd_ok bd text :
  1 ≤ COL_RND bd →
  fmt_rnd bd text = Some (rjust (Z.to_nat (COL_RND bd - 1)) text ++ lit " ").
Proof. intros. unfold fmt_rnd. by rewrite fmt_right_ok by lia. Qed.

Lemma fmt_score_val_ok bd x :
  1 ≤ COL_PLY bd → is_Some (fmt_score_val bd x).
Proof. intros. unfold fmt_score_val. by rewrite fmt_right_ok by lia. Qed.

Lemma fmt_score_signed_ok bd x :
  1 ≤ COL_PLY bd → is_Some (fmt_score_signed bd x).
Proof. intros. unfold fmt_score_signed. by rewrite fmt_right_ok by lia. Qed.

Lemma body_lines_from_ok bd rs : ∀ i,
  renderable bd → is_Some (body_lines_from bd i rs).
Proof.
  induction rs as [|r rs IH]; intros i [Hr Hp]; [done|].
  cbn [body_lines_from]. unfold body_line.
  rewrite fmt_rnd_ok by done.
  destruct (fmt_score_val_ok bd (a r) Hp) as [c2 ->].
  destruct (fmt_score_val_ok bd (b r) Hp) as [c3 ->].
  destruct (IH (i + 1) (conj Hr Hp)) as [ls ->]. done.
Qed.

(** A record with positive column widths always renders. *)
Lemma render_ok bd : renderable bd → is_Some (render bd).
Proof.
  intros [Hr Hp]. unfold render, table, header_row, footer, totals_row, diff_row.
  destruct (totals bd) as [ta tb].
  rewrite !fmt_rnd_ok by done.
  destruct (body_lines_from_ok bd (rounds bd) 1 (conj Hr Hp)) as [ls Hls].
  unfold body_lines. rewrite Hls.
  destruct (fmt_score_val_ok bd ta Hp) as [c2 ->].
  destruct (fmt_score_val_ok bd tb Hp) as [c3 ->].
  destruct (fmt_score_signed_ok bd (ta - tb) Hp) as [c4 ->].
  destruct (fmt_score_signed_ok bd (- (ta - tb)) Hp) as [c5 ->]. done.
Qed.

Lemma get_board_active w k bd :
  active w k bd → get_board k w = (Val (Some bd), w).
Proof. intros (d & Hd & Hbd). unfold get_board. by rewrite Hd, Hbd. Qed.

Lemma get_board_absent w k : absent w k → get_board k w = (Val None, w).
Proof. intros Hd. unfold get_board. by rewrite Hd. Qed.

Lemma active_insert m l k bd :
  active {| data := <[k := to_dict bd]> m; log := l |} k bd.
Proof.
  exists (to_dict bd). split; [apply lookup_insert_eq | apply from_dict_to_dict].
Qed.

Lemma active_inj w k bd1 bd2 : active w k bd1 → active w k bd2 → bd1 = bd2.
Proof. intros (d1 & H1 & E1) (d2 & H2 & E2). congruence. Qed.

Lemma refresh_run e bd w text :
  render bd = Some text →
  refresh e bd w
  = (Val (refreshed e bd),
     {| data := data w; log := log w ++ [refresh_event e bd text] |}).
Proof.
  intros Hr. unfold refresh, refreshed, refresh_event, bind, lift.
  rewrite Hr. by destruct (fetch_found e (message_id bd)).
Qed.

(** [refresh] touches nothing but the message id. *)
Lemma refreshed_fields e bd :
  title (refreshed e bd) = title bd
  ∧ player_a (refreshed e bd) = player_a bd
  ∧ player_b (refreshed e bd) = player_b bd
  ∧ rounds (refreshed e bd) = rounds bd
  ∧ COL_RND (refreshed e bd) = COL_RND bd
  ∧ COL_PLY (refreshed e bd) = COL_PLY bd
  ∧ zero_as_dash (refreshed e bd) = zero_as_dash bd.
Proof. unfold refreshed. by destruct (fetch_found e (message_id bd)). Qed.

(** The tail of a mutating command: publish, save, answer. *)
Lemma publish_save_run e k bd r w text :
  render bd = Some text →
  (bd' <~ refresh e bd; save_board k bd' ;;; emit (Followup (r bd'))) w
  = (Val tt,
     {| data := <[k := to_dict (refreshed e bd)]> (data w);
        log := log w ++ [refresh_event e bd text;
                         Save k (to_dict (refreshed e bd));
                         Followup (r (refreshed e bd))] |}).
Proof.
  intros Hr. unfold bind. rewrite (refresh_run e bd w text Hr).
  unfold save_board, emit. cbn. by rewrite <- !app_assoc.
Qed.

(** *** board_add *)

Lemma board_add_absent e k x y w :
  absent w k →
  board_add e k x y w
  = (Val tt, {| data := data w; log := log w ++ [Followup MsgStartFirst] |}).
Proof. intros H. unfold board_add, bind. by rewrite (get_board_absent w k H). Qed.

Lemma board_add_unpublished e k x y w bd :
  active w k bd → truthy_id (message_id bd) = false →
  board_add e k x y w
  = (Val tt, {| data := data w; log := log w ++ [Followup MsgStartFirst] |}).
Proof.
  intros H Hid. unfold board_add, bind.
  by rewrite (get_board_active w k bd H), Hid.
Qed.

Lemma board_add_published e k x y w bd :
  active w k bd → truthy_id (message_id bd) = true → renderable bd →
  ∃ text,
    let bd1 := set_rounds bd (rounds bd ++ [mkRound x y]) in
    render bd1 = Some text
    ∧ board_add e k x y w
      = (Val tt,
         {| data := <[k := to_dict (refreshed e bd1)]> (data w);
            log := log w ++ [refresh_event e bd1 text;
                             Save k (to_dict (refreshed e bd1));
                             Followup (MsgAdded (S (length (rounds bd))) x y)] |}).
Proof.
  intros H Hid Hren.
  destruct (render_ok (set_rounds bd (rounds bd ++ [mkRound x y])) Hren)
    as [text Htext].
  exists text. split; [done|].
  unfold board_add. unfold bind at 1. rewrite (get_board_active w k bd H), Hid.
  cbn [negb].
  rewrite (publish_save_run e k _ (λ b, MsgAdded (length (rounds b)) x y) w text Htext).
  do 4 f_equal. destruct (refreshed_fields e (set_rounds bd (rounds bd ++ [mkRound x y])))
    as (_ & _ & _ & -> & _).
  cbn. rewrite length_app. cbn. by rewrite Nat.add_1_r.
Qed.

(** ** C2: board_add *)

(** C2, as the code has it. For a key whose record has a message id
    (and positive column widths, as every record the commands write
    has), [board_add] publishes, saves and answers; the saved record is
    the old one with [Round(x, y)] as new last round. It is rejected
    with the file unchanged when the key has no record and also when its
    record has no message id; with a message id it is never rejected. *)
Theorem board_add_spec (e : discord) (k : string) (x y : Z) (w : world) :
  (∀ bd, active w k bd → truthy_id (message_id bd) = true → renderable bd →
     ∃ text bd1 bd',
       bd1 = set_rounds bd (rounds bd ++ [mkRound x y])
       ∧ bd' = refreshed e bd1
       ∧ board_add e k x y w
         = (Val tt,
            {| data := <[k := to_dict bd']> (data w);
               log := log w ++ [refresh_event e bd1 text;
                                Save k (to_dict bd');
                                Followup (MsgAdded (S (length (rounds bd))) x y)] |})
       ∧ active (board_add e k x y w).2 k bd'
       ∧ rounds bd' = rounds bd ++ [mkRound x y]
       ∧ last (rounds bd') = Some (mkRound x y)
       ∧ title bd' = title bd ∧ player_a bd' = player_a bd
       ∧ player_b bd' = player_b bd ∧ zero_as_dash bd' = zero_as_dash bd
       ∧ ¬ add_rejected e k x y w)
  ∧ (absent w k → add_rejected e k x y w)
  ∧ (∀ bd, active w k bd → truthy_id (message_id bd) = false →
       add_rejected e k x y w).
Proof.
  split; [|split].
  - intros bd Hact Hid Hren.
    destruct (board_add_published e k x y w bd Hact Hid Hren) as (text & Hr & Hrun).
    cbn zeta in Hr, Hrun.
    set (bd1 := set_rounds bd (rounds bd ++ [mkRound x y])) in *.
    exists text, bd1, (refreshed e bd1).
    destruct (refreshed_fields e bd1) as (Ht & Hpa & Hpb & Hrs & _ & _ & Hz).
    split; [done|]. split; [done|]. split; [done|].
    split; [rewrite Hrun; apply active_insert|].
    split; [by rewrite Hrs|]. split; [rewrite Hrs; apply last_snoc|].
    repeat (split; [done|]).
    unfold add_rejected. rewrite Hrun. intros Heq.
    injection Heq as _ Hlog. apply app_inv_head in Hlog. discriminate.
  - apply board_add_absent.
  - intros bd. apply board_add_unpublished.
Qed.

(** On the file holding scenario A, [add(5, 0)] appends round (5, 0). *)
Lemma board_add_spec_witness :
  ∃ text bd1 bd',
    bd1 = set_rounds scenario_A (rounds scenario_A ++ [mkRound 5 0])
    ∧ bd' = refreshed discord_found bd1
    ∧ board_add discord_found KEY 5 0 world_A
      = (Val tt,
         {| data := <[KEY := to_dict bd']> (data world_A);
            log := log world_A ++ [refresh_event discord_found bd1 text;
                                   Save KEY (to_dict bd');
                                   Followup (MsgAdded 3 5 0)] |})
    ∧ active (board_add discord_found KEY 5 0 world_A).2 KEY bd'
    ∧ rounds bd' = [mkRound 3 1; mkRound 0 2; mkRound 5 0]
    ∧ last (rounds bd') = Some (mkRound 5 0)
    ∧ title bd' = title scenario_A ∧ player_a bd' = player_a scenario_A
    ∧ player_b bd' = player_b scenario_A
    ∧ zero_as_dash bd' = zero_as_dash scenario_A
    ∧ ¬ add_rejected discord_found KEY 5 0 world_A.
Proof.
  apply (proj1 (board_add_spec discord_found KEY 5 0 world_A) scenario_A).
  - exists (to_dict scenario_A). split; [apply lookup_singleton_eq | reflexivity].
  - reflexivity.
  - split; cbn; lia.
Defined.

(** C2 as stated fails: the key has a record (never published, so
    without message id), and [add(3, 1)] is rejected; the file still
    holds the record without rounds. *)
Lemma board_add_active_rejected :
  active world_unpublished KEY unpublished
  ∧ message_id unpublished = None
  ∧ board_add discord_found KEY 3 1 world_unpublished
    = (Val tt, {| data := data world_unpublished;
                  log := [Followup MsgStartFirst] |})
  ∧ ¬ (∃ bd', active (board_add discord_found KEY 3 1 world_unpublished).2 KEY bd'
              ∧ last (rounds bd') = Some (mkRound 3 1)).
Proof.
  assert (active world_unpublished KEY unpublished) as Hact.
  { exists (to_dict unpublished). split; [apply lookup_singleton_eq | reflexivity]. }
  assert (board_add discord_found KEY 3 1 world_unpublished
          = (Val tt, {| data := data world_unpublished;
                        log := [Followup MsgStartFirst] |})) as Hrun.
  { by apply (board_add_unpublished discord_found KEY 3 1 world_unpublished unpublished). }
  split; [done|]. split; [done|]. split; [done|].
  rewrite Hrun. intros (bd' & Hact' & Hlast).
  assert (bd' = unpublished) as ->.
  { eapply active_inj; [exact Hact'|]. exact Hact. }
  discriminate.
Qed.

(** *** board_start *)

Lemma board_start_invalid e k pa pb t w :
  _validate_name (Some pa) = None ∨ _validate_name (Some pb) = None →
  board_start e k pa pb t w
  = (Val tt, {| data := data w; log := log w ++ [Followup MsgNamesNotAscii] |}).
Proof.
  intros H. unfold board_start.
  destruct (_validate_name (Some pa)), (_validate_name (Some pb));
    try done. by destruct H.
Qed.

Lemma render_new_Board t pa pb : is_Some (render (new_Board t pa pb [])).
Proof. apply render_ok. split; cbn; lia. Qed.

Lemma board_start_runs e k pa pb va vb t w (existing : option Board) :
  _validate_name (Some pa) = Some va → _validate_name (Some pb) = Some vb →
  get_board k w = (Val existing, w) →
  match existing with
  | Some ex => rounds ex = [] ∧ truthy_id (message_id ex) = false
  | None => True
  end →
  ∃ text,
    let bd' := set_message_id (new_Board (or_else t DEFAULT_TITLE) va vb [])
                              (Some (sent_id e)) in
    render (new_Board (or_else t DEFAULT_TITLE) va vb []) = Some text
    ∧ board_start e k pa pb t w
      = (Val tt,
         {| data := <[k := to_dict bd']> (data w);
            log := log w ++ [Send text; Save k (to_dict bd'); Followup MsgCreated] |}).
Proof.
  intros Ha Hb Hget Hex.
  destruct (render_new_Board (or_else t DEFAULT_TITLE) va vb) as [text Htext].
  exists text. split; [done|].
  unfold board_start. rewrite Ha, Hb. unfold bind at 1. rewrite Hget.
  assert (match existing with
          | Some ex => negb (bool_decide (rounds ex = [])) || truthy_id (message_id ex)
          | None => false
          end = false) as ->.
  { destruct existing as [ex|]; [|done]. destruct Hex as [-> ->]. done. }
  unfold bind, lift. rewrite Htext. unfold ret, emit, save_board. cbn.
  by rewrite <- !app_assoc.
Qed.

Lemma board_start_existing e k pa pb va vb t w ex :
  _validate_name (Some pa) = Some va → _validate_name (Some pb) = Some vb →
  active w k ex →
  rounds ex ≠ [] ∨ truthy_id (message_id ex) = true →
  board_start e k pa pb t w
  = (Val tt, {| data := data w; log := log w ++ [Followup MsgAlreadyExists] |}).
Proof.
  intros Ha Hb Hact Hex. unfold board_start. rewrite Ha, Hb. unfold bind.
  rewrite (get_board_active w k ex Hact).
  assert (negb (bool_decide (rounds ex = [])) || truthy_id (message_id ex) = true) as ->.
  { destruct Hex as [Hr | ->]; [|by rewrite orb_true_r].
    by rewrite bool_decide_eq_false_2. }
  done.
Qed.

(** ** C6: board_start *)

(** C6. With two valid names [board_start] creates the record when the
    key has none, or has one without rounds and without message id: the
    new record has no rounds, the names cut to 8 characters, the given
    title (the default one when none or an empty one is given), the
    default layout, and the id of the message just sent. With an invalid
    name it answers with the naming rule and leaves the file alone. When
    the key has a record with rounds or with a message id (an id is
    tested for truth, so it is a non-zero number), it answers that a
    board exists and leaves the file alone. *)
Theorem board_start_spec (e : discord) (k : string) (pa pb : pystr)
    (t : option pystr) (w : world) :
  (_validate_name (Some pa) ≠ None → _validate_name (Some pb) ≠ None →
   absent w k
   ∨ (∃ ex, active w k ex ∧ rounds ex = [] ∧ truthy_id (message_id ex) = false) →
   ∃ text bd',
     bd' = {| title := or_else t DEFAULT_TITLE;
              player_a := take 8 pa; player_b := take 8 pb;
              rounds := []; message_id := Some (sent_id e);
              COL_RND := 5; COL_PLY := 10; zero_as_dash := true |}
     ∧ _validate_name (Some pa) = Some (player_a bd')
     ∧ _validate_name (Some pb) = Some (player_b bd')
     ∧ board_start e k pa pb t w
       = (Val tt,
          {| data := <[k := to_dict bd']> (data w);
             log := log w ++ [Send text; Save k (to_dict bd');
                              Followup MsgCreated] |})
     ∧ active (board_start e k pa pb t w).2 k bd')
  ∧ (_validate_name (Some pa) = None ∨ _validate_name (Some pb) = None →
     board_start e k pa pb t w
     = (Val tt, {| data := data w;
                   log := log w ++ [Followup MsgNamesNotAscii] |}))
  ∧ (∀ ex, _validate_name (Some pa) ≠ None → _validate_name (Some pb) ≠ None →
     active w k ex →
     rounds ex ≠ [] ∨ truthy_id (message_id ex) = true →
     board_start e k pa pb t w
     = (Val tt, {| data := data w;
                   log := log w ++ [Followup MsgAlreadyExists] |})).
Proof.
  destruct validate_name_cases with (n := pa) as [Ha | Ha];
  destruct validate_name_cases with (n := pb) as [Hb | Hb];
  (split; [|split]); try (intros; congruence);
  try (intros; apply board_start_invalid; by auto).
  - intros _ _ Hfree.
    assert (∃ existing, get_board k w = (Val existing, w)
              ∧ match existing with
                | Some ex => rounds ex = [] ∧ truthy_id (message_id ex) = false
                | None => True
                end) as (existing & Hget & Hex).
    { destruct Hfree as [Habs | (ex & Hact & Hr & Hid)].
      - exists None. split; [by apply get_board_absent | done].
      - exists (Some ex). split; [by apply get_board_active | done]. }
    destruct (board_start_runs e k pa pb _ _ t w existing Ha Hb Hget Hex)
      as (text & _ & Hrun).
    cbn zeta in Hrun. eexists text, _. split; [reflexivity|].
    split; [done|]. split; [done|]. split; [exact Hrun|].
    rewrite Hrun. apply (active_insert (data w) _ k).
  - intros ex _ _ Hact Hex. by eapply board_start_existing.
Qed.

(** On the empty file [start("Reo", "Haruna", "Finals")] creates the record. *)
Lemma board_start_spec_witness :
  ∃ text bd',
    bd' = {| title := lit "Finals";
             player_a := lit "Reo"; player_b := lit "Haruna";
             rounds := []; message_id := Some 99;
             COL_RND := 5; COL_PLY := 10; zero_as_dash := true |}
    ∧ _validate_name (Some (lit "Reo")) = Some (player_a bd')
    ∧ _validate_name (Some (lit "Haruna")) = Some (player_b bd')
    ∧ board_start discord_gone KEY (lit "Reo") (lit "Haruna")
        (Some (lit "Finals")) world_empty
      = (Val tt,
         {| data := <[KEY := to_dict bd']> (data world_empty);
            log := log world_empty ++ [Send text; Save KEY (to_dict bd');
                                       Followup MsgCreated] |})
    ∧ active (board_start discord_gone KEY (lit "Reo") (lit "Haruna")
                (Some (lit "Finals")) world_empty).2 KEY bd'.
Proof.
  apply (proj1 (board_start_spec discord_gone KEY (lit "Reo") (lit "Haruna")
                  (Some (lit "Finals")) world_empty)).
  - discriminate.
  - discriminate.
  - left. reflexivity.
Defined.

(** *** board_edit *)

Lemma board_edit_no_rounds e k n x y w bd :
  active w k bd → rounds bd = [] →
  board_edit e k n x y w
  = (Val tt, {| data := data w; log := log w ++ [Followup MsgNoBoard] |}).
Proof.
  intros Hact Hr. unfold board_edit, bind.
  by rewrite (get_board_active w k bd Hact), Hr.
Qed.

Lemma board_edit_out_of_range e k n x y w bd :
  active w k bd → rounds bd ≠ [] →
  n < 1 ∨ Z.of_nat (length (rounds bd)) < n →
  board_edit e k n x y w
  = (Val tt, {| data := data w;
                log := log w ++ [Followup (MsgNoSuchRound n (length (rounds bd)))] |}).
Proof.
  intros Hact Hr Hn. unfold board_edit, bind.
  rewrite (get_board_active w k bd Hact), bool_decide_eq_false_2 by done.
  assert ((n <? 1) || (n >? Z.of_nat (length (rounds bd))) = true) as ->; [|done].
  apply orb_true_iff. destruct Hn; [left; by apply Z.ltb_lt | right].
  rewrite Z.gtb_ltb. by apply Z.ltb_lt.
Qed.

Lemma board_edit_in_range e k n x y w bd :
  active w k bd → 1 ≤ n ≤ Z.of_nat (length (rounds bd)) → renderable bd →
  ∃ text r,
    let i := Z.to_nat (n - 1) in
    let r' := {| a := default (a r) x; b := default (b r) y |} in
    let bd1 := set_rounds bd (<[i := r']> (rounds bd)) in
    rounds bd !! i = Some r
    ∧ render bd1 = Some text
    ∧ board_edit e k n x y w
      = (Val tt,
         {| data := <[k := to_dict (refreshed e bd1)]> (data w);
            log := log w ++ [refresh_event e bd1 text;
                             Save k (to_dict (refreshed e bd1));
                             Followup (MsgEdited n (a r') (b r'))] |}).
Proof.
  intros Hact Hn Hren.
  destruct (lookup_lt_is_Some_2 (rounds bd) (Z.to_nat (n - 1))) as [r Hr]; [lia|].
  set (r' := {| a := default (a r) x; b := default (b r) y |}).
  destruct (render_ok (set_rounds bd (<[Z.to_nat (n - 1) := r']> (rounds bd))) Hren)
    as [text Htext].
  exists text, r. cbn zeta. split; [done|]. split; [done|].
  unfold board_edit. unfold bind at 1. rewrite (get_board_active w k bd Hact).
  rewrite bool_decide_eq_false_2.
  2:{ intros Hnil. rewrite Hnil in Hn. cbn in Hn. lia. }
  assert ((n <? 1) || (n >? Z.of_nat (length (rounds bd))) = false) as ->.
  { apply orb_false_iff. split; [apply Z.ltb_ge; lia|].
    rewrite Z.gtb_ltb. apply Z.ltb_ge. lia. }
  unfold bind at 1. rewrite Hr. cbn [lift ret].
  assert (match y with
          | Some y' => {| a := a match x with Some x' => {| a := x'; b := b r |} | None => r end; b := y' |}
          | None => match x with Some x' => {| a := x'; b := b r |} | None => r end
          end = r') as ->.
  { subst r'. destruct r, x, y; done. }
  exact (publish_save_run e k _ (λ _, MsgEdited n (a r') (b r')) w text Htext).
Qed.

(** ** C7: board_edit *)

(** C7. On a record with [1 ≤ round_no ≤ len(rounds)], [board_edit]
    saves the record with round [round_no] holding the supplied scores
    and its old value in a field that was not supplied; every other
    round, the number of rounds, the names, the title and the zero
    style are as before. With rounds but [round_no] out of range it
    answers with the number and the current highest round and leaves the
    file alone; with no rounds it answers that there is no board and
    leaves the file alone. *)
Theorem board_edit_spec (e : discord) (k : string) (round_no : Z)
    (x y : option Z) (w : world) (bd : Board) :
  active w k bd →
  (1 ≤ round_no ≤ Z.of_nat (length (rounds bd)) → renderable bd →
   ∃ text r r' bd1 bd',
     rounds bd !! Z.to_nat (round_no - 1) = Some r
     ∧ r' = {| a := default (a r) x; b := default (b r) y |}
     ∧ bd1 = set_rounds bd (<[Z.to_nat (round_no - 1) := r']> (rounds bd))
     ∧ bd' = refreshed e bd1
     ∧ board_edit e k round_no x y w
       = (Val tt,
          {| data := <[k := to_dict bd']> (data w);
             log := log w ++ [refresh_event e bd1 text;
                              Save k (to_dict bd');
                              Followup (MsgEdited round_no (a r') (b r'))] |})
     ∧ active (board_edit e k round_no x y w).2 k bd'
     ∧ rounds bd' !! Z.to_nat (round_no - 1) = Some r'
     ∧ (∀ j, j ≠ Z.to_nat (round_no - 1) → rounds bd' !! j = rounds bd !! j)
     ∧ length (rounds bd') = length (rounds bd)
     ∧ title bd' = title bd ∧ player_a bd' = player_a bd
     ∧ player_b bd' = player_b bd ∧ zero_as_dash bd' = zero_as_dash bd)
  ∧ (rounds bd ≠ [] →
     round_no < 1 ∨ Z.of_nat (length (rounds bd)) < round_no →
     board_edit e k round_no x y w
     = (Val tt,
        {| data := data w;
           log := log w ++ [Followup (MsgNoSuchRound round_no
                                        (length (rounds bd)))] |}))
  ∧ (rounds bd = [] →
     board_edit e k round_no x y w
     = (Val tt, {| data := data w; log := log w ++ [Followup MsgNoBoard] |})).
Proof.
  intros Hact. split; [|split].
  - intros Hn Hren.
    destruct (board_edit_in_range e k round_no x y w bd Hact Hn Hren)
      as (text & r & Hr & _ & Hrun). cbn zeta in Hrun.
    set (i := Z.to_nat (round_no - 1)) in *.
    set (r' := {| a := default (a r) x; b := default (b r) y |}) in *.
    set (bd1 := set_rounds bd (<[i := r']> (rounds bd))) in *.
    exists text, r, r', bd1, (refreshed e bd1).
    destruct (refreshed_fields e bd1) as (Ht & Hpa & Hpb & Hrs & _ & _ & Hz).
    repeat (split; [done|]).
    split; [rewrite Hrun; apply active_insert|].
    rewrite Hrs. cbn [bd1 rounds set_rounds].
    split; [apply list_lookup_insert_eq; subst i; lia|].
    split; [intros j Hj; by apply list_lookup_insert_ne|].
    split; [apply length_insert|]. done.
  - by apply board_edit_out_of_range.
  - by apply board_edit_no_rounds.
Qed.

(** Scenario B: [edit(1, b=5)] on scenario A makes round 1 (3, 5). *)
Lemma board_edit_spec_witness :
  ∃ text r r' bd1 bd',
    rounds scenario_A !! Z.to_nat (1 - 1) = Some r
    ∧ r' = {| a := default (a r) None; b := default (b r) (Some 5) |}
    ∧ bd1 = set_rounds scenario_A (<[Z.to_nat (1 - 1) := r']> (rounds scenario_A))
    ∧ bd' = refreshed discord_found bd1
    ∧ board_edit discord_found KEY 1 None (Some 5) world_A
      = (Val tt,
         {| data := <[KEY := to_dict bd']> (data world_A);
            log := log world_A ++ [refresh_event discord_found bd1 text;
                                   Save KEY (to_dict bd');
                                   Followup (MsgEdited 1 (a r') (b r'))] |})
    ∧ active (board_edit discord_found KEY 1 None (Some 5) world_A).2 KEY bd'
    ∧ rounds bd' !! Z.to_nat (1 - 1) = Some r'
    ∧ (∀ j, j ≠ Z.to_nat (1 - 1) → rounds bd' !! j = rounds scenario_A !! j)
    ∧ length (rounds bd') = length (rounds scenario_A)
    ∧ title bd' = title scenario_A ∧ player_a bd' = player_a scenario_A
    ∧ player_b bd' = player_b scenario_A
    ∧ zero_as_dash bd' = zero_as_dash scenario_A.
Proof.
  refine (proj1 (board_edit_spec discord_found KEY 1 None (Some 5)
                   world_A scenario_A _) _ _).
  - exists (to_dict scenario_A). split; [apply lookup_singleton_eq | reflexivity].
  - cbn. lia.
  - split; cbn; lia.
Defined.

(** *** board_rename *)

(** The record [board_rename] publishes when no supplied name is refused. *)
Lemma board_rename_runs e k pa pb t w bd :
  active w k bd → renderable bd →
  (∀ n, pa = Some n → _is_ascii n = true) →
  (∀ n, pb = Some n → _is_ascii n = true) →
  ∃ text,
    let bd1 := {| title := or_else t (title bd);
                  player_a := from_option (take 8) (player_a bd) pa;
                  player_b := from_option (take 8) (player_b bd) pb;
                  rounds := rounds bd; message_id := message_id bd;
                  COL_RND := COL_RND bd; COL_PLY := COL_PLY bd;
                  zero_as_dash := zero_as_dash bd |} in
    render bd1 = Some text
    ∧ board_rename e k pa pb t w
      = (Val tt,
         {| data := <[k := to_dict (refreshed e bd1)]> (data w);
            log := log w ++ [refresh_event e bd1 text;
                             Save k (to_dict (refreshed e bd1));
                             Followup MsgRenamed] |}).
Proof.
  intros Hact Hren Ha Hb. cbn zeta.
  match goal with |- ∃ text, render ?b = _ ∧ _ =>
    destruct (render_ok b Hren) as [text Htext]; set (bd1 := b) in * end.
  exists text. split; [done|].
  unfold board_rename. unfold bind at 1. rewrite (get_board_active w k bd Hact).
  assert (match pa with
          | Some _ => va ← _validate_name pa; Some (set_player_a bd va)
          | None => Some bd
          end = Some (set_player_a bd (from_option (take 8) (player_a bd) pa))) as ->.
  { destruct pa as [n|]; [|by destruct bd]. cbn. by rewrite (Ha n eq_refl). }
  assert (match pb with
          | Some _ => vb ← _validate_name pb;
                      Some (set_player_b (set_player_a bd (from_option (take 8) (player_a bd) pa)) vb)
          | None => Some (set_player_a bd (from_option (take 8) (player_a bd) pa))
          end
          = Some (set_player_b (set_player_a bd (from_option (take 8) (player_a bd) pa))
                               (from_option (take 8) (player_b bd) pb))) as ->.
  { destruct pb as [n|]; [|by destruct bd]. cbn. by rewrite (Hb n eq_refl). }
  assert (match t with
          | Some (c :: t') =>
              set_title (set_player_b (set_player_a bd (from_option (take 8) (player_a bd) pa))
                                      (from_option (take 8) (player_b bd) pb)) (c :: t')
          | _ => set_player_b (set_player_a bd (from_option (take 8) (player_a bd) pa))
                              (from_option (take 8) (player_b bd) pb)
          end = bd1) as ->.
  { subst bd1. by destruct t as [[|c t']|]. }
  exact (publish_save_run e k bd1 (λ _, MsgRenamed) w text Htext).
Qed.

Lemma board_rename_refused e k pa pb t w bd :
  active w k bd →
  (is_Some pa ∧ _validate_name pa = None)
  ∨ (is_Some pb ∧ _validate_name pb = None) →
  ∃ r, (r = MsgPlayerANotAscii ∨ r = MsgPlayerBNotAscii)
       ∧ board_rename e k pa pb t w
         = (Val tt, {| data := data w; log := log w ++ [Followup r] |}).
Proof.
  intros Hact Hbad. unfold board_rename, bind.
  rewrite (get_board_active w k bd Hact).
  destruct pa as [na|].
  - destruct (_validate_name (Some na)) as [va|] eqn:Ea.
    + destruct Hbad as [[_ Hbad] | [[nb ->] Hbad]]; [congruence|].
      rewrite Hbad. cbn. eauto.
    + cbn. eauto.
  - destruct Hbad as [[[? ?] _] | [[nb ->] Hbad]]; [done|].
    rewrite Hbad. cbn. eauto.
Qed.

(** Whatever the file holds, a refused name leaves it as it is, and the
    only thing that can be added to the trace is a followup. *)
Lemma board_rename_refused_frame e k pa pb t w :
  (is_Some pa ∧ _validate_name pa = None)
  ∨ (is_Some pb ∧ _validate_name pb = None) →
  ∃ evs, (board_rename e k pa pb t w).2
         = {| data := data w; log := log w ++ evs |}
         ∧ Forall (λ ev, ∃ r, ev = Followup r) evs.
Proof.
  intros Hbad. destruct (data w !! k) as [d|] eqn:Hd.
  - destruct (from_dict d) as [bd|] eqn:Hbd.
    + destruct (board_rename_refused e k pa pb t w bd) as (r & _ & ->);
        [by exists d | done |].
      exists [Followup r]. split; [done|]. repeat constructor. by exists r.
    + exists []. unfold board_rename, bind, get_board. rewrite Hd, Hbd. cbn.
      rewrite app_nil_r. by destruct w.
  - exists [Followup MsgNoBoard]. unfold board_rename, bind, get_board.
    rewrite Hd. cbn. split; [done|]. repeat constructor. by eexists.
Qed.

(** ** C4: board_rename refuses as a whole *)

(** C4. When a supplied name fails validation, [board_rename] on an
    existing record only answers with the refusal: the file is
    unchanged, nothing is saved and nothing is published, also when the
    other supplied name was valid. On any file, the outcome keeps the
    file and adds nothing but followups to the trace. *)
Theorem board_rename_invalid_rejected (e : discord) (k : string)
    (pa pb t : option pystr) (w : world) :
  (is_Some pa ∧ _validate_name pa = None)
  ∨ (is_Some pb ∧ _validate_name pb = None) →
  (∀ bd, active w k bd →
     ∃ r, (r = MsgPlayerANotAscii ∨ r = MsgPlayerBNotAscii)
          ∧ board_rename e k pa pb t w
            = (Val tt, {| data := data w; log := log w ++ [Followup r] |})
          ∧ active (board_rename e k pa pb t w).2 k bd)
  ∧ data (board_rename e k pa pb t w).2 = data w
  ∧ (∃ evs, log (board_rename e k pa pb t w).2 = log w ++ evs
            ∧ Forall (λ ev, ∃ r, ev = Followup r) evs
            ∧ ∀ k' d, Save k' d ∉ evs).
Proof.
  intros Hbad. split; [|split].
  - intros bd Hact.
    destruct (board_rename_refused e k pa pb t w bd Hact Hbad) as (r & Hr & Hrun).
    exists r. split; [done|]. split; [done|]. by rewrite Hrun.
  - destruct (board_rename_refused_frame e k pa pb t w Hbad) as (evs & -> & _).
    done.
  - destruct (board_rename_refused_frame e k pa pb t w Hbad) as (evs & -> & Hevs).
    exists evs. split; [done|]. split; [done|].
    intros k' d Hin. rewrite Forall_forall in Hevs.
    destruct (Hevs _ Hin) as [r Hr]. discriminate.
Qed.

(** Scenario D with a valid first name: [rename("Leo", "日本語")] on
    scenario A is refused and the file still holds scenario A. *)
Lemma board_rename_invalid_rejected_witness :
  (∀ bd, active world_A KEY bd →
     ∃ r, (r = MsgPlayerANotAscii ∨ r = MsgPlayerBNotAscii)
          ∧ board_rename discord_found KEY (Some (lit "Leo"))
              (Some [26085; 26412; 35486]%N) None world_A
            = (Val tt, {| data := data world_A;
                          log := log world_A ++ [Followup r] |})
          ∧ active (board_rename discord_found KEY (Some (lit "Leo"))
                      (Some [26085; 26412; 35486]%N) None world_A).2 KEY bd)
  ∧ data (board_rename discord_found KEY (Some (lit "Leo"))
            (Some [26085; 26412; 35486]%N) None world_A).2 = data world_A
  ∧ (∃ evs, log (board_rename discord_found KEY (Some (lit "Leo"))
                   (Some [26085; 26412; 35486]%N) None world_A).2
            = log world_A ++ evs
            ∧ Forall (λ ev, ∃ r, ev = Followup r) evs
            ∧ ∀ k' d, Save k' d ∉ evs).
Proof.
  apply (board_rename_invalid_rejected discord_found KEY (Some (lit "Leo"))
           (Some [26085; 26412; 35486]%N) None world_A).
  right. split; [by eexists | reflexivity].
Defined.

(** ** C10: an empty title in board_rename *)

(** C10. [board_rename] with the empty string as title does exactly what
    it does with no title; on an existing record whose supplied names
    are valid, the saved record keeps its title and carries each
    supplied name cut to 8 characters. *)
Theorem board_rename_empty_title (e : discord) (k : string)
    (pa pb : option pystr) (w : world) :
  board_rename e k pa pb (Some []) w = board_rename e k pa pb None w
  ∧ (∀ bd, active w k bd → renderable bd →
       (∀ n, pa = Some n → _is_ascii n = true) →
       (∀ n, pb = Some n → _is_ascii n = true) →
       ∃ text bd1 bd',
         bd1 = {| title := title bd;
                  player_a := from_option (take 8) (player_a bd) pa;
                  player_b := from_option (take 8) (player_b bd) pb;
                  rounds := rounds bd; message_id := message_id bd;
                  COL_RND := COL_RND bd; COL_PLY := COL_PLY bd;
                  zero_as_dash := zero_as_dash bd |}
         ∧ bd' = refreshed e bd1
         ∧ board_rename e k pa pb (Some []) w
           = (Val tt,
              {| data := <[k := to_dict bd']> (data w);
                 log := log w ++ [refresh_event e bd1 text;
                                  Save k (to_dict bd');
                                  Followup MsgRenamed] |})
         ∧ active (board_rename e k pa pb (Some []) w).2 k bd'
         ∧ title bd' = title bd
         ∧ player_a bd' = from_option (take 8) (player_a bd) pa
         ∧ player_b bd' = from_option (take 8) (player_b bd) pb).
Proof.
  split; [reflexivity|].
  intros bd Hact Hren Ha Hb.
  destruct (board_rename_runs e k pa pb (Some []) w bd Hact Hren Ha Hb)
    as (text & _ & Hrun).
  cbn zeta in Hrun. cbn [or_else] in Hrun.
  eexists text, _, _. split; [reflexivity|]. split; [reflexivity|].
  split; [exact Hrun|]. split; [rewrite Hrun; apply active_insert|].
  match goal with |- context [refreshed e ?b] =>
    destruct (refreshed_fields e b) as (-> & -> & -> & _) end.
  done.
Qed.

(** [rename] with [player_a="Leo"] and an empty title on scenario A: the title stays
    "Finals" and the left player becomes "Leo". *)
Lemma board_rename_empty_title_witness :
  ∃ text bd1 bd',
    bd1 = {| title := lit "Finals"; player_a := lit "Leo";
             player_b := lit "Haruna";
             rounds := rounds scenario_A; message_id := Some 7;
             COL_RND := 5; COL_PLY := 10; zero_as_dash := true |}
    ∧ bd' = refreshed discord_found bd1
    ∧ board_rename discord_found KEY (Some (lit "Leo")) None (Some []) world_A
      = (Val tt,
         {| data := <[KEY := to_dict bd']> (data world_A);
            log := log world_A ++ [refresh_event discord_found bd1 text;
                                   Save KEY (to_dict bd');
                                   Followup MsgRenamed] |})
    ∧ active (board_rename discord_found KEY (Some (lit "Leo")) None
                (Some []) world_A).2 KEY bd'
    ∧ title bd' = lit "Finals"
    ∧ player_a bd' = lit "Leo"
    ∧ player_b bd' = lit "Haruna".
Proof.
  refine (proj2 (board_rename_empty_title discord_found KEY
                   (Some (lit "Leo")) None world_A) scenario_A _ _ _ _).
  - exists (to_dict scenario_A). split; [apply lookup_singleton_eq | reflexivity].
  - split; cbn; lia.
  - intros n [= <-]. reflexivity.
  - intros n [=].
Defined.

(** ** C9: board_zero_style *)

Section ZeroStyleProps.
Variable unicode_lower : pystr → N → pystr → pystr.

(** What is used of the Unicode tables: lowering a code point outside
    ASCII yields at least one character that is not a letter of
    ["dash"] or ["zero"]. (The tables produce ASCII only as ["k"],
    from the Kelvin sign, and as ["i"] followed by a combining dot.) *)
Hypothesis unicode_lower_outside :
  ∀ pre c post, (128 ≤ c)%N →
    ∃ x, x ∈ unicode_lower pre c post ∧ x ∉ STYLE_LETTERS.

Local Abbreviation lower := (lower unicode_lower).
Local Abbreviation lower_from := (lower_from unicode_lower).
Local Abbreviation lower_char := (lower_char unicode_lower).

Lemma lower_char_upper pre c post :
  (65 ≤ c ≤ 90)%N → lower_char pre c post = [(c + 32)%N].
Proof.
  intros [H1 H2]. unfold lower_char.
  by rewrite (proj2 (N.leb_le 65 c) H1), (proj2 (N.leb_le c 90) H2).
Qed.

Lemma lower_char_other_ascii pre c post :
  (c < 65 ∨ 90 < c)%N → (c < 128)%N → lower_char pre c post = [c].
Proof.
  intros H1 H2. unfold lower_char, is_ascii_char.
  rewrite (proj2 (N.ltb_lt c 128) H2).
  destruct H1 as [H1 | H1].
  - by rewrite (proj2 (N.leb_gt 65 c) H1).
  - by rewrite (proj2 (N.leb_gt c 90) H1), andb_false_r.
Qed.

Lemma lower_char_outside pre c post :
  (128 ≤ c)%N → lower_char pre c post = unicode_lower pre c post.
Proof.
  intros H. unfold lower_char, is_ascii_char.
  rewrite (proj2 (N.leb_gt c 90)) by lia.
  rewrite andb_false_r. by rewrite (proj2 (N.ltb_ge c 128) H).
Qed.

(** Lowering gives a word of lower-case style letters exactly for its
    capitalizations. *)
Lemma lower_from_word t :
  Forall (λ l, l ∈ STYLE_LETTERS ∧ (97 ≤ l ≤ 122)%N) t →
  ∀ s pre, lower_from pre s = t ↔ capitalization_of s t.
Proof.
  intros Ht s. revert t Ht.
  induction s as [|c post IH]; intros t Ht pre.
  - cbn. split.
    + intros <-. constructor.
    + intros H. by inversion H.
  - cbn [lower_from].
    destruct (decide (c < 128)%N) as [Hascii | Hout].
    + destruct (decide (65 ≤ c ≤ 90)%N) as [Hup | Hlow].
      * rewrite lower_char_upper by done. split.
        -- intros <-. cbn in Ht. apply Forall_cons in Ht as [_ Ht].
           constructor; [by right|]. by apply (IH _ Ht (pre ++ [c])).
        -- intros H. inversion H as [|? l ? t' Hc Hrest Es]; subst.
           apply Forall_cons in Ht as [[_ Hl] Ht].
           apply (IH _ Ht (pre ++ [c])) in Hrest. rewrite Hrest. cbn.
           f_equal. lia.
      * rewrite lower_char_other_ascii by lia. split.
        -- intros <-. cbn in Ht. apply Forall_cons in Ht as [_ Ht].
           constructor; [by left|]. by apply (IH _ Ht (pre ++ [c])).
        -- intros H. inversion H as [|? l ? t' Hc Hrest Es]; subst.
           apply Forall_cons in Ht as [[_ Hl] Ht].
           apply (IH _ Ht (pre ++ [c])) in Hrest. rewrite Hrest. cbn.
           f_equal. lia.
    + rewrite lower_char_outside by lia. split.
      * intros <-.
        destruct (unicode_lower_outside pre c post) as (x & Hx & Hnot); [lia|].
        exfalso. apply Hnot. rewrite Forall_forall in Ht.
        apply Ht. apply elem_of_app. by left.
      * intros H. inversion H as [|? l ? t' Hc Hrest Es]; subst.
        apply Forall_cons in Ht as [[_ Hl] _]. lia.
Qed.

Lemma lower_dash s : lower s = lit "dash" ↔ capitalization_of s (lit "dash").
Proof.
  apply lower_from_word. unfold STYLE_LETTERS. cbn.
  repeat (apply Forall_cons; split; [split; [in_list | lia]|]).
  apply Forall_nil_2.
Qed.

Lemma lower_zero s : lower s = lit "zero" ↔ capitalization_of s (lit "zero").
Proof.
  apply lower_from_word. unfold STYLE_LETTERS. cbn.
  repeat (apply Forall_cons; split; [split; [in_list | lia]|]).
  apply Forall_nil_2.
Qed.

Lemma board_zero_style_runs e k style w bd z :
  active w k bd → renderable bd →
  (z = true ∧ lower style = lit "dash")
  ∨ (z = false ∧ lower style = lit "zero") →
  ∃ text,
    let bd1 := set_zero_as_dash bd z in
    render bd1 = Some text
    ∧ board_zero_style unicode_lower e k style w
      = (Val tt,
         {| data := <[k := to_dict (refreshed e bd1)]> (data w);
            log := log w ++ [refresh_event e bd1 text;
                             Save k (to_dict (refreshed e bd1));
                             Followup (MsgZeroStyle z)] |}).
Proof.
  intros Hact Hren Hz.
  destruct (render_ok (set_zero_as_dash bd z) Hren) as [text Htext].
  exists text. split; [done|].
  unfold board_zero_style. unfold bind at 1.
  rewrite (get_board_active w k bd Hact).
  assert ((if bool_decide (lower style = lit "dash")
           then Some (set_zero_as_dash bd true)
           else if bool_decide (lower style = lit "zero")
           then Some (set_zero_as_dash bd false) else None)
          = Some (set_zero_as_dash bd z)) as ->.
  { destruct Hz as [[-> Hs] | [-> Hs]].
    - by rewrite bool_decide_eq_true_2.
    - rewrite bool_decide_eq_false_2 by (rewrite Hs; discriminate).
      by rewrite bool_decide_eq_true_2. }
  rewrite (publish_save_run e k _ (λ b, MsgZeroStyle (zero_as_dash b)) w text Htext).
  do 6 f_equal.
  by destruct (refreshed_fields e (set_zero_as_dash bd z)) as (_&_&_&_&_&_& ->).
Qed.

Lemma board_zero_style_bad e k style w bd :
  active w k bd →
  lower style ≠ lit "dash" → lower style ≠ lit "zero" →
  board_zero_style unicode_lower e k style w
  = (Val tt, {| data := data w; log := log w ++ [Followup MsgBadStyle] |}).
Proof.
  intros Hact Hd Hz. unfold board_zero_style, bind.
  rewrite (get_board_active w k bd Hact).
  by rewrite !bool_decide_eq_false_2.
Qed.

(** C9. On an existing record, every capitalization of ["dash"]
    (["DASH"], ["Dash"], ...) saves the record with [zero_as_dash]
    true and every capitalization of ["zero"] saves it with
    [zero_as_dash] false, the other fields as they were; any other
    token is answered with the two allowed styles and the file is left
    alone. *)
Theorem board_zero_style_spec (e : discord) (k : string) (style : pystr)
    (w : world) (bd : Board) :
  active w k bd →
  (∀ z, (z = true ∧ capitalization_of style (lit "dash"))
        ∨ (z = false ∧ capitalization_of style (lit "zero")) →
        renderable bd →
        ∃ text bd1 bd',
          bd1 = set_zero_as_dash bd z
          ∧ bd' = refreshed e bd1
          ∧ board_zero_style unicode_lower e k style w
            = (Val tt,
               {| data := <[k := to_dict bd']> (data w);
                  log := log w ++ [refresh_event e bd1 text;
                                   Save k (to_dict bd');
                                   Followup (MsgZeroStyle z)] |})
          ∧ active (board_zero_style unicode_lower e k style w).2 k bd'
          ∧ zero_as_dash bd' = z
          ∧ title bd' = title bd ∧ player_a bd' = player_a bd
          ∧ player_b bd' = player_b bd ∧ rounds bd' = rounds bd)
  ∧ (¬ capitalization_of style (lit "dash") →
     ¬ capitalization_of style (lit "zero") →
     board_zero_style unicode_lower e k style w
     = (Val tt, {| data := data w;
                   log := log w ++ [Followup MsgBadStyle] |})).
Proof.
  intros Hact. split.
  - intros z Hz Hren.
    destruct (board_zero_style_runs e k style w bd z Hact Hren)
      as (text & _ & Hrun).
    { destruct Hz as [[-> H] | [-> H]]; [left | right]; split; try done.
      - by apply lower_dash.
      - by apply lower_zero. }
    cbn zeta in Hrun.
    exists text, (set_zero_as_dash bd z), (refreshed e (set_zero_as_dash bd z)).
    destruct (refreshed_fields e (set_zero_as_dash bd z))
      as (Ht & Hpa & Hpb & Hrs & _ & _ & Hzd).
    repeat (split; [done|]).
    split; [rewrite Hrun; apply active_insert|]. done.
  - intros Hd Hz. apply (board_zero_style_bad e k style w bd Hact).
    + by rewrite lower_dash.
    + by rewrite lower_zero.
Qed.
End ZeroStyleProps.

Lemma lower_identity_outside pre c post :
  (128 ≤ c)%N → ∃ x, x ∈ lower_identity pre c post ∧ x ∉ STYLE_LETTERS.
Proof.
  intros Hc. exists c. split; [by left|].
  intros Hin. apply list_elem_of_In in Hin. cbn in Hin.
  repeat (destruct Hin as [Hin | Hin]; [lia|]). done.
Qed.

(** ["DASH"] on scenario A (stored with zeros as ["0"]) turns the dash
    style on. *)
Lemma board_zero_style_spec_witness :
  ∃ text bd1 bd',
    bd1 = set_zero_as_dash (set_zero_as_dash scenario_A false) true
    ∧ bd' = refreshed discord_found bd1
    ∧ board_zero_style lower_identity discord_found KEY (lit "DASH")
        {| data := {[ KEY := to_dict (set_zero_as_dash scenario_A false) ]};
           log := [] |}
      = (Val tt,
         {| data := <[KEY := to_dict bd']>
                      {[ KEY := to_dict (set_zero_as_dash scenario_A false) ]};
            log := [] ++ [refresh_event discord_found bd1 text;
                          Save KEY (to_dict bd');
                          Followup (MsgZeroStyle true)] |})
    ∧ active (board_zero_style lower_identity discord_found KEY (lit "DASH")
                {| data := {[ KEY := to_dict (set_zero_as_dash scenario_A false) ]};
                   log := [] |}).2 KEY bd'
    ∧ zero_as_dash bd' = true
    ∧ title bd' = lit "Finals" ∧ player_a bd' = lit "Reo"
    ∧ player_b bd' = lit "Haruna" ∧ rounds bd' = rounds scenario_A.
Proof.
  refine (proj1 (board_zero_style_spec lower_identity lower_identity_outside
                   discord_found KEY (lit "DASH")
                   {| data := {[ KEY := to_dict (set_zero_as_dash scenario_A false) ]};
                      log := [] |}
                   (set_zero_as_dash scenario_A false) _) true _ _).
  - exists (to_dict (set_zero_as_dash scenario_A false)).
    split; [apply lookup_singleton_eq | reflexivity].
  - left. split; [reflexivity|].
    repeat (constructor; [right; reflexivity|]). constructor.
  - split; cbn; lia.
Defined.

(** ** Scenario A, run through the commands *)

(** [start("Reo","Haruna","Finals")], [add(3,1)], [add(0,2)] on the empty
    file, the board being published as message 7, leave scenario A
    under the key. *)
Lemma scenario_A_reached :
  let e := {| fetch_found := λ _, true; sent_id := 7 |} in
  let run := board_start e KEY (lit "Reo") (lit "Haruna") (Some (lit "Finals")) ;;;
             board_add e KEY 3 1 ;;;
             board_add e KEY 0 2 in
  (run world_empty).1 = Val tt
  ∧ data (run world_empty).2 !! KEY = Some (to_dict scenario_A).
Proof. split; vm_compute; reflexivity. Qed.


(* ================================================================== *)
(** * Further properties *)

(** ** Names *)

Lemma is_ascii_take n s : _is_ascii s = true → _is_ascii (take n s) = true.
Proof.
  rewrite !is_ascii_spec. intros H c Hc. apply H.
  by apply (subseteq_take n s).
Qed.

(** A name that passes validation is stored as at most 8 ASCII
    characters, and validating it again changes nothing. *)
Theorem validate_name_valid (n v : pystr) :
  _validate_name (Some n) = Some v →
  valid_name v ∧ _validate_name (Some v) = Some v.
Proof.
  unfold _validate_name, slice_to.
  destruct (_is_ascii n) eqn:E; [|done]. intros [= <-].
  assert (_is_ascii (take 8 n) = true) as Ha by by apply is_ascii_take.
  assert (length (take 8 n) ≤ 8)%nat as Hl by (rewrite length_take; lia).
  split; [done|]. rewrite Ha. cbn [negb]. by rewrite take_ge.
Qed.

Lemma validate_name_valid_witness :
  valid_name (lit "Player01")
  ∧ _validate_name (Some (lit "Player01")) = Some (lit "Player01").
Proof.
  apply (validate_name_valid (lit "Player0123") (lit "Player01")). reflexivity.
Defined.

Lemma filter_ascii_id (n : pystr) :
  _is_ascii n = true → filter (λ c, is_ascii_char c = true) n = n.
Proof.
  intros H. induction n as [|c n IH]; [done|].
  cbn in H. apply andb_true_iff in H as [Hc Hn].
  unfold pystr in *. rewrite filter_cons_True by done. by rewrite IH.
Qed.

(** The header cell of a stored name shows the whole name, pushed to
    the right of 8 columns, with one space on each side. *)
Theorem fmt_name_valid (n : pystr) :
  valid_name n →
  fmt_name n = lit " " ++ replicate (8 - length n) 32%N ++ n ++ lit " ".
Proof.
  intros [Ha Hl]. unfold fmt_name, slice_to, rjust.
  rewrite filter_ascii_id, take_ge by done. by rewrite <- !app_assoc.
Qed.

Lemma fmt_name_valid_witness :
  fmt_name (lit "Reo") = lit " " ++ replicate (8 - 3) 32%N ++ lit "Reo" ++ lit " ".
Proof. apply (fmt_name_valid (lit "Reo")). split; [reflexivity | cbn; lia]. Defined.

(** ** Totals *)

Lemma fold_left_add_shift (l : list Z) (z : Z) :
  fold_left Z.add l z = z + fold_left Z.add l 0.
Proof.
  revert z. induction l as [|x l IH]; intros z; [cbn; lia|].
  cbn [fold_left]. rewrite (IH (z + x)), (IH (0 + x)). lia.
Qed.

Lemma sum_ints_app (l1 l2 : list Z) :
  sum_ints (l1 ++ l2) = sum_ints l1 + sum_ints l2.
Proof.
  unfold sum_ints. rewrite fold_left_app. apply fold_left_add_shift.
Qed.

(** The totals are running sums: those of a concatenation are the sums
    of the parts, so a new last round adds its two scores, and no
    rounds give (0, 0). *)
Theorem totals_app (bd : Board) (rs1 rs2 : list Round) :
  totals (set_rounds bd []) = (0, 0)
  ∧ totals (set_rounds bd (rs1 ++ rs2))
    = ((totals (set_rounds bd rs1)).1 + (totals (set_rounds bd rs2)).1,
       (totals (set_rounds bd rs1)).2 + (totals (set_rounds bd rs2)).2)
  ∧ ∀ r, totals (set_rounds bd (rounds bd ++ [r]))
         = ((totals bd).1 + a r, (totals bd).2 + b r).
Proof.
  split; [done|]. split.
  - unfold totals. cbn [rounds set_rounds fst snd].
    by rewrite !List.map_app, !sum_ints_app.
  - intros r. unfold totals. cbn [rounds set_rounds fst snd].
    rewrite !List.map_app, !sum_ints_app. done.
Qed.

(** ** Rendering: failure, empty boards, overflow, zero style *)

Lemma fmt_right_neg w s : w < 0 → fmt_right w s = None.
Proof. intros. unfold fmt_right. by rewrite (proj2 (Z.ltb_lt w 0)). Qed.

(** [render] raises whenever a column width is below 1: the format
    width of a cell is then negative, which is refused for a string. *)
Theorem render_raises_below_1 (bd : Board) :
  COL_RND bd < 1 ∨ COL_PLY bd < 1 → render bd = None.
Proof.
  intros Hbad. unfold render, table.
  destruct (decide (COL_RND bd < 1)) as [Hr | Hr].
  - unfold header_row, fmt_rnd. by rewrite fmt_right_neg by lia.
  - destruct (header_row bd) as [h|]; [|done].
    destruct (body_lines bd) as [ls|]; [|done].
    unfold footer, totals_row. destruct (totals bd) as [ta tb].
    unfold fmt_rnd, fmt_score_val.
    rewrite (fmt_right_ok (COL_RND bd - 1)) by lia.
    rewrite !(fmt_right_neg (COL_PLY bd - 1)) by lia. reflexivity.
Qed.

Lemma render_raises_below_1_witness : render zero_width = None.
Proof. apply (render_raises_below_1 zero_width). right. cbn. lia. Defined.

(** A board without rounds whose names hold no line feed renders a
    table text of exactly seven lines, none of them blank: rule, header,
    rule, rule again, the totals shown as zeros in the record's zero
    style, the differences both [+0], rule; each is 29 characters. *)
Theorem table_no_rounds (bd : Board) :
  COL_RND bd = 5 → COL_PLY bd = 10 → rounds bd = [] →
  nl_free (player_a bd) → nl_free (player_b bd) →
  ∃ text,
    table bd = Some text
    ∧ lines_of text
      = [ rule bd;
          row (lit " RND ") (fmt_name (player_a bd)) (fmt_name (player_b bd));
          rule bd;
          rule bd;
          row (lit "   " ++ SIGMA ++ lit " ")
              (if zero_as_dash bd then lit "        - " else lit "        0 ")
              (if zero_as_dash bd then lit "        - " else lit "        0 ");
          row (lit "   " ++ DELTA ++ lit " ") (lit "       +0 ") (lit "       +0 ");
          rule bd ]
    ∧ Forall (λ l, length l = 29%nat) (lines_of text).
Proof.
  intros Hr Hp Hrs Hna Hnb.
  assert (table bd
          = Some (unlines
              [ rule bd;
                row (lit " RND ") (fmt_name (player_a bd)) (fmt_name (player_b bd));
                rule bd;
                rule bd;
                row (lit "   " ++ SIGMA ++ lit " ")
                    (if zero_as_dash bd then lit "        - " else lit "        0 ")
                    (if zero_as_dash bd then lit "        - " else lit "        0 ");
                row (lit "   " ++ DELTA ++ lit " ")
                    (lit "       +0 ") (lit "       +0 ");
                rule bd ])) as Htable.
  { rewrite table_unlines.
    unfold table_lines, header_row, body_lines, totals_row, diff_row, totals.
    rewrite Hrs.
    rewrite !fmt_rnd_std, !fmt_score_val_std, !fmt_score_signed_std by done.
    unfold score_text. by destruct (zero_as_dash bd). }
  eexists. split; [exact Htable|].
  pose proof (nl_free_rule bd) as Fr.
  pose proof (length_rule_std bd Hr Hp) as Lr.
  rewrite lines_of_unlines.
  - split; [done|].
    repeat (apply Forall_cons; split;
            [first [ exact Lr
                   | rewrite length_row, ?length_fmt_name;
                     by destruct (zero_as_dash bd) ]|]).
    apply Forall_nil_2.
  - repeat (apply Forall_cons; split;
            [first [ exact Fr
                   | apply nl_free_row;
                     first [ by apply nl_free_fmt_name
                           | destruct (zero_as_dash bd); by repeat constructor ] ]|]).
    apply Forall_nil_2.
Qed.

Lemma table_no_rounds_witness :
  ∃ text,
    table unpublished = Some text
    ∧ lines_of text
      = [ rule unpublished;
          row (lit " RND ") (fmt_name (lit "Reo")) (fmt_name (lit "Haruna"));
          rule unpublished;
          rule unpublished;
          row (lit "   " ++ SIGMA ++ lit " ") (lit "        - ") (lit "        - ");
          row (lit "   " ++ DELTA ++ lit " ") (lit "       +0 ") (lit "       +0 ");
          rule unpublished ]
    ∧ Forall (λ l, length l = 29%nat) (lines_of text).
Proof.
  apply (table_no_rounds unpublished); try reflexivity; by repeat constructor.
Defined.

Lemma rjust_suffix w s : ∃ pad, rjust w s = pad ++ s ∧ Forall (λ c, c = 32%N) pad.
Proof.
  exists (replicate (w - length s) 32%N). split; [done|].
  apply Forall_forall. intros c Hc. by apply elem_of_replicate in Hc as [-> _].
Qed.

(** A round row never cuts a text: each cell is its text behind spaces
    only, as wide as the field or as the text if that is longer, so a
    score of more than 9 characters makes the row longer than 29. *)
Theorem body_line_width (bd : Board) (i : Z) (r : Round) :
  COL_RND bd = 5 → COL_PLY bd = 10 →
  ∃ p1 p2 p3,
    body_line bd i r
    = Some (row (p1 ++ str_int i ++ lit " ")
                (p2 ++ score_text bd (a r) ++ lit " ")
                (p3 ++ score_text bd (b r) ++ lit " "))
    ∧ Forall (λ c, c = 32%N) (p1 ++ p2 ++ p3)
    ∧ ∀ l, body_line bd i r = Some l →
        length l = (7 + (4 `max` length (str_int i))
                      + (9 `max` length (score_text bd (a r)))
                      + (9 `max` length (score_text bd (b r))))%nat.
Proof.
  intros Hr Hp. unfold body_line.
  rewrite fmt_rnd_std, !fmt_score_val_std by done.
  destruct (rjust_suffix 4 (str_int i)) as (p1 & E1 & F1).
  destruct (rjust_suffix 9 (score_text bd (a r))) as (p2 & E2 & F2).
  destruct (rjust_suffix 9 (score_text bd (b r))) as (p3 & E3 & F3).
  exists p1, p2, p3. split; [|split].
  - cbn -[row rjust lit]. by rewrite E1, E2, E3, <- !app_assoc.
  - by rewrite !Forall_app.
  - cbn -[row rjust lit]. intros l [= <-].
    rewrite length_row, !length_app, !length_rjust. cbn. lia.
Qed.

Lemma body_line_width_witness :
  ∃ p1 p2 p3,
    body_line scenario_A 1 (mkRound 1234567890 (-5))
    = Some (row (p1 ++ str_int 1 ++ lit " ")
                (p2 ++ score_text scenario_A 1234567890 ++ lit " ")
                (p3 ++ score_text scenario_A (-5) ++ lit " "))
    ∧ Forall (λ c, c = 32%N) (p1 ++ p2 ++ p3)
    ∧ ∀ l, body_line scenario_A 1 (mkRound 1234567890 (-5)) = Some l →
        length l = (7 + (4 `max` length (str_int 1))
                      + (9 `max` length (score_text scenario_A 1234567890))
                      + (9 `max` length (score_text scenario_A (-5))))%nat.
Proof.
  apply (body_line_width scenario_A 1 (mkRound 1234567890 (-5))); reflexivity.
Defined.

Lemma body_lines_from_zero_style (bd : Board) (z : bool) (rs : list Round) :
  (∀ r, r ∈ rs → a r ≠ 0 ∧ b r ≠ 0) →
  ∀ i, body_lines_from (set_zero_as_dash bd z) i rs = body_lines_from bd i rs.
Proof.
  induction rs as [|r rs IH]; intros Hrs i; [done|].
  cbn [body_lines_from]. rewrite IH by (intros r' Hr'; apply Hrs; by right).
  destruct (Hrs r) as [Ha Hb]; [left|].
  unfold body_line, fmt_score_val, score_text.
  apply Z.eqb_neq in Ha, Hb. by rewrite Ha, Hb.
Qed.

(** The zero style only shows on zero scores: when no round score and
    neither total is 0, the board renders the same under both styles. *)
Theorem render_zero_style_irrelevant (bd : Board) (z : bool) :
  (∀ r, r ∈ rounds bd → a r ≠ 0 ∧ b r ≠ 0) →
  (totals bd).1 ≠ 0 → (totals bd).2 ≠ 0 →
  render (set_zero_as_dash bd z) = render bd.
Proof.
  intros Hrs Ha Hb.
  unfold render, table, header_row, body_lines, footer, totals_row, diff_row.
  change (rounds (set_zero_as_dash bd z)) with (rounds bd).
  rewrite body_lines_from_zero_style by done.
  change (totals (set_zero_as_dash bd z)) with (totals bd).
  destruct (totals bd) as [ta tb]. cbn in Ha, Hb.
  unfold fmt_score_val, score_text.
  apply Z.eqb_neq in Ha, Hb. by rewrite Ha, Hb.
Qed.

Lemma render_zero_style_irrelevant_witness :
  render (set_zero_as_dash (set_rounds scenario_A [mkRound 3 1; mkRound 4 2]) false)
  = render (set_rounds scenario_A [mkRound 3 1; mkRound 4 2]).
Proof.
  apply (render_zero_style_irrelevant
           (set_rounds scenario_A [mkRound 3 1; mkRound 4 2]) false).
  - intros r Hr.
    apply elem_of_cons in Hr as [-> | Hr]; [split; discriminate|].
    apply elem_of_cons in Hr as [-> | Hr]; [split; discriminate|].
    by apply elem_of_nil in Hr.
  - discriminate.
  - discriminate.
Defined.

(** ** Signed and plain number texts *)

Lemma lit_inj (s t : string) : lit s = lit t → s = t.
Proof.
  revert t. induction s as [|c s IH]; intros [|c' t]; cbn; try done.
  intros [= Hc Hs]. f_equal; [|by apply IH].
  rewrite <- (ascii_N_embedding c), <- (ascii_N_embedding c'). by rewrite Hc.
Qed.

Lemma to_int_not_nil (x : Z) : Z.to_int x ≠ Pos Nil ∧ Z.to_int x ≠ Neg Nil.
Proof.
  destruct x as [|p|p]; cbn; split; try discriminate;
    intros [= H]; by apply (Unsigned.to_uint_nonnil p).
Qed.

Lemma key_int_inj (x y : Z) : key_int x = key_int y → x = y.
Proof.
  unfold key_int. intros H. apply DecimalZ.to_int_inj.
  destruct (to_int_not_nil x) as [Hx1 Hx2].
  destruct (to_int_not_nil y) as [Hy1 Hy2].
  pose proof (NilZero.isi (Z.to_int x) Hx1 Hx2) as Ex.
  pose proof (NilZero.isi (Z.to_int y) Hy1 Hy2) as Ey.
  rewrite H in Ex. congruence.
Qed.

Lemma string_of_pos_nonnil (p : positive) :
  NilZero.string_of_uint (Pos.to_uint p) = NilEmpty.string_of_uint (Pos.to_uint p)
  ∧ NilEmpty.string_of_uint (Pos.to_uint p) ≠ EmptyString.
Proof.
  pose proof (Unsigned.to_uint_nonnil p) as H.
  destruct (Pos.to_uint p); done.
Qed.

(** The number texts: [str] is one-to-one; a non-zero difference and
    its negation are shown with the same digits and opposite signs, the
    digits being [str] of the absolute value; only zero has one text,
    [+0], for both. *)
Theorem signed_texts (x : Z) :
  (∀ y, str_int x = str_int y → x = y)
  ∧ (0 < x → fmt_plus_d x = lit "+" ++ str_int x
             ∧ fmt_plus_d (- x) = lit "-" ++ str_int x
             ∧ str_int (- x) = lit "-" ++ str_int x)
  ∧ (x = 0 → fmt_plus_d x = lit "+0" ∧ fmt_plus_d (- x) = lit "+0").
Proof.
  split; [|split].
  - intros y H. unfold str_int in H. apply lit_inj in H. by apply key_int_inj.
  - intros Hx. destruct x as [|p|p]; try done.
    destruct (string_of_pos_nonnil p) as [E _].
    unfold fmt_plus_d, str_int.
    change (- Z.pos p) with (Z.neg p).
    cbn -[lit NilZero.string_of_uint NilEmpty.string_of_uint].
    rewrite E. done.
  - by intros ->.
Qed.

Lemma signed_texts_witness :
  fmt_plus_d 4 = lit "+" ++ str_int 4
  ∧ fmt_plus_d (- 4) = lit "-" ++ str_int 4
  ∧ str_int (- 4) = lit "-" ++ str_int 4.
Proof. apply (proj1 (proj2 (signed_texts 4))). lia. Defined.

(** ** The context key *)

Lemma string_of_uint_colon_free (d : uint) :
  colon_free (NilEmpty.string_of_uint d).
Proof.
  induction d; intros c; cbn; try done;
    (intros [<- | Hc]; [discriminate | by apply IHd]).
Qed.

Lemma key_int_colon_free (x : Z) : colon_free (key_int x).
Proof.
  unfold key_int.
  assert (∀ d, colon_free (NilZero.string_of_uint d)) as Hu.
  { intros d. destruct d; try apply string_of_uint_colon_free.
    intros c; cbn. intros [<- | []]. discriminate. }
  destruct (Z.to_int x) as [d | d]; cbn [NilZero.string_of_int]; [apply Hu|].
  intros c; cbn. intros [<- | Hc]; [discriminate | exact (Hu d c Hc)].
Qed.

Lemma split_at_colon (s1 s2 r1 r2 : string) :
  colon_free s1 → colon_free s2 →
  (s1 ++ ":" ++ r1 = s2 ++ ":" ++ r2)%string → s1 = s2 ∧ r1 = r2.
Proof.
  revert s2. induction s1 as [|c s1 IH]; intros [|c' s2] H1 H2;
    unfold String.append; fold String.append.
  - by intros [= ->].
  - intros [= <- _]. exfalso. apply (H2 ":"%char); [by left | done].
  - intros [= -> _]. exfalso. apply (H1 ":"%char); [by left | done].
  - intros [= -> H]. destruct (IH s2) as [-> ->]; try done.
    + intros x Hx. apply H1. by right.
    + intros x Hx. apply H2. by right.
Qed.

Lemma key_components (c1 c2 : interaction) :
  _key c1 = _key c2 →
  guild_or_0 (guild_id c1) = guild_or_0 (guild_id c2)
  ∧ channel_id_of (inter_channel c1) = channel_id_of (inter_channel c2)
  ∧ thread_id_of (inter_channel c1) = thread_id_of (inter_channel c2).
Proof.
  unfold _key. intros H.
  apply split_at_colon in H as [Hg H]; try apply key_int_colon_free.
  apply split_at_colon in H as [Hc Ht]; try apply key_int_colon_free.
  by rewrite (key_int_inj _ _ Hg), (key_int_inj _ _ Hc), (key_int_inj _ _ Ht).
Qed.

(** Two interactions get the same key exactly when they agree on the
    guild (none counting as 0), on the base channel and on the thread
    (none counting as 0). *)
Theorem key_eq_iff (c1 c2 : interaction) :
  _key c1 = _key c2
  ↔ guild_or_0 (guild_id c1) = guild_or_0 (guild_id c2)
    ∧ channel_id_of (inter_channel c1) = channel_id_of (inter_channel c2)
    ∧ thread_id_of (inter_channel c1) = thread_id_of (inter_channel c2).
Proof.
  split; [apply key_components|].
  unfold _key. by intros (-> & -> & ->).
Qed.

(** A thread (its id is not 0) never shares the key of its parent
    channel, and two threads of one channel have different keys. *)
Theorem key_thread_distinct (g : option Z) (p t t' : Z) :
  t ≠ 0 → t ≠ t' →
  _key (mkInteraction g (Thread t p)) ≠ _key (mkInteraction g (Channel p))
  ∧ _key (mkInteraction g (Thread t p)) ≠ _key (mkInteraction g (Thread t' p)).
Proof.
  intros H0 Hne.
  split; intros H; apply key_components in H as (_ & _ & H); cbn in H; done.
Qed.

Lemma key_thread_distinct_witness :
  _key (mkInteraction (Some 1) (Thread 7 2)) ≠ _key (mkInteraction (Some 1) (Channel 2))
  ∧ _key (mkInteraction (Some 1) (Thread 7 2)) ≠ _key (mkInteraction (Some 1) (Thread 8 2)).
Proof. apply (key_thread_distinct (Some 1) 2 7 8); lia. Defined.

(** ** Missing fields of a stored record *)

(** A stored record from which any fields are missing reads back with
    the source's default in each missing field and the stored value in
    every other. *)
Theorem from_dict_missing_fields (bd : Board) (keep : string → bool) :
  from_dict (List.filter (λ kv, keep kv.1) (to_dict bd))
  = Some {| title := if keep "title" then title bd else lit "Scoreboard";
            player_a := if keep "player_a" then player_a bd else lit "PlayerA";
            player_b := if keep "player_b" then player_b bd else lit "PlayerB";
            rounds := if keep "rounds" then rounds bd else [];
            message_id := if keep "message_id" then message_id bd else None;
            COL_RND := if keep "COL_RND" then COL_RND bd else 5;
            COL_PLY := if keep "COL_PLY" then COL_PLY bd else 10;
            zero_as_dash := if keep "zero_as_dash" then zero_as_dash bd else true |}.
Proof.
  destruct bd as [t pa pb rs mid cr cp zd].
  unfold to_dict. cbn [List.filter fst snd title player_a player_b rounds
                       message_id COL_RND COL_PLY zero_as_dash].
  destruct (keep "title"), (keep "player_a"), (keep "player_b"),
    (keep "rounds"), (keep "message_id"), (keep "COL_RND"),
    (keep "COL_PLY"), (keep "zero_as_dash");
    unfold from_dict; cbn -[mapM Round_of_dict Round_asdict];
    rewrite ?mapM_Round_of_asdict; cbn; by destruct mid.
Qed.

(** ** Every command is local to its key *)

Lemma local_ret {A} k (x : A) : local_to k (ret x).
Proof. intros w. split; [done|]. exists []. cbn. by rewrite app_nil_r. Qed.

Lemma local_raise {A} k : local_to k (@raise A).
Proof. intros w. split; [done|]. exists []. cbn. by rewrite app_nil_r. Qed.

Lemma local_lift {A} k (o : option A) : local_to k (lift o).
Proof. destruct o; [apply local_ret | apply local_raise]. Qed.

Lemma local_emit k ev : local_to k (emit ev).
Proof. intros w. split; [done|]. by exists [ev]. Qed.

Lemma local_get_board k : local_to k (get_board k).
Proof.
  intros w. unfold get_board.
  destruct (data w !! k) as [d|]; [destruct (from_dict d)|];
    (split; [done|]; exists []; cbn; by rewrite app_nil_r).
Qed.

Lemma local_save_board k bd : local_to k (save_board k bd).
Proof.
  intros w. split.
  - intros k' Hk'. cbn. by rewrite lookup_insert_ne.
  - by eexists.
Qed.

Lemma local_bind {A B} k (m : M A) (f : A → M B) :
  local_to k m → (∀ x, local_to k (f x)) → local_to k (bind m f).
Proof.
  intros Hm Hf w. unfold bind.
  destruct (Hm w) as [Hd [evs Hl]].
  destruct (m w) as [[x|] w'] eqn:E; cbn in Hd, Hl.
  - destruct (Hf x w') as [Hd' [evs' Hl']]. split.
    + intros k' Hk'. by rewrite Hd', Hd.
    + exists (evs ++ evs'). by rewrite Hl', Hl, app_assoc.
  - split; [done|]. by exists evs.
Qed.

Ltac local_step :=
  first
    [ apply local_ret | apply local_raise | apply local_lift
    | apply local_emit | apply local_get_board | apply local_save_board
    | apply local_bind; [|intros ?]
    | match goal with
      | |- local_to _ (match ?x with _ => _ end) => destruct x
      | |- local_to _ (let _ := _ in _) => cbv zeta
      end ].

Lemma local_refresh e k bd : local_to k (refresh e bd).
Proof. unfold refresh. repeat local_step. Qed.

Lemma local_board_start e k pa pb t : local_to k (board_start e k pa pb t).
Proof. unfold board_start. repeat local_step. Qed.

Lemma local_board_add e k x y : local_to k (board_add e k x y).
Proof. unfold board_add. repeat first [apply local_refresh | local_step]. Qed.

Lemma local_board_edit e k n x y : local_to k (board_edit e k n x y).
Proof. unfold board_edit. repeat first [apply local_refresh | local_step]. Qed.

Lemma local_board_rename e k pa pb t : local_to k (board_rename e k pa pb t).
Proof. unfold board_rename. repeat first [apply local_refresh | local_step]. Qed.

Lemma local_board_zero_style ul e k style :
  local_to k (board_zero_style ul e k style).
Proof. unfold board_zero_style. repeat first [apply local_refresh | local_step]. Qed.

Lemma xlocal_ret {A} k (x : A) : xlocal_to k (xret x).
Proof. intros w. split; [done|]. exists []. cbn. by rewrite app_nil_r. Qed.

Lemma xlocal_emit k ev : xlocal_to k (xemit ev).
Proof. intros w. split; [done|]. by exists [ev]. Qed.

Lemma xlocal_embed {A} k (m : M A) : local_to k m → xlocal_to k (embed m).
Proof.
  intros Hm w. destruct (Hm {| data := xdata w; log := [] |}) as [Hd [evs Hl]].
  unfold embed. cbn in *. split; [done|]. by eexists.
Qed.

Lemma xlocal_remove_key k : xlocal_to k (remove_key k).
Proof.
  intros w. unfold remove_key. destruct (xdata w !! k); cbn.
  - split; [|by eexists]. intros k' Hk'. by rewrite lookup_delete_ne.
  - split; [done|]. exists []. by rewrite app_nil_r.
Qed.

Lemma xlocal_bind {A B} k (m : X A) (f : A → X B) :
  xlocal_to k m → (∀ x, xlocal_to k (f x)) → xlocal_to k (xbind m f).
Proof.
  intros Hm Hf w. unfold xbind.
  destruct (Hm w) as [Hd [evs Hl]].
  destruct (m w) as [[x|] w'] eqn:E; cbn in Hd, Hl.
  - destruct (Hf x w') as [Hd' [evs' Hl']]. split.
    + intros k' Hk'. by rewrite Hd', Hd.
    + exists (evs ++ evs'). by rewrite Hl', Hl, app_assoc.
  - split; [done|]. by exists evs.
Qed.

Ltac xlocal_step :=
  first
    [ apply xlocal_ret | apply xlocal_emit | apply xlocal_remove_key
    | apply xlocal_embed;
        first [ apply local_get_board | apply local_save_board
              | apply local_refresh | apply local_lift ]
    | apply xlocal_bind; [|intros ?]
    | match goal with
      | |- xlocal_to _ (match ?x with _ => _ end) => destruct x
      | |- xlocal_to _ (let _ := _ in _) => cbv zeta
      end ].

(** Whatever the file holds and whatever Discord answers, a command
    given in one context leaves the entry of every other context as it
    was, and only adds to the trace. *)
Theorem exec_local (ul : pystr → N → pystr → pystr) (e : discord)
    (k : string) (c : command) (w : xworld) :
  (∀ k', k' ≠ k → xdata (exec ul e k c w).2 !! k' = xdata w !! k')
  ∧ ∃ evs, xlog (exec ul e k c w).2 = xlog w ++ evs.
Proof.
  revert w. change (xlocal_to k (exec ul e k c)).
  destruct c; cbn [exec].
  - apply xlocal_embed, local_board_start.
  - apply xlocal_embed, local_board_add.
  - apply xlocal_embed, local_board_edit.
  - unfold board_undo. repeat xlocal_step.
  - unfold board_show. repeat xlocal_step.
  - apply xlocal_embed, local_board_rename.
  - unfold board_reset. repeat xlocal_step.
  - unfold board_delete. repeat xlocal_step.
  - apply xlocal_embed, local_board_zero_style.
Qed.

(** ** Commands in a context without record *)

Lemma embed_run {A} (m : M A) (w : xworld) r d l :
  m {| data := xdata w; log := [] |} = (r, {| data := d; log := l |}) →
  embed m w = (r, {| xdata := d; xlog := xlog w ++ List.map Core l |}).
Proof. intros H. unfold embed. by rewrite H. Qed.

Lemma embed_get_board_absent k (w : xworld) :
  xdata w !! k = None → embed (get_board k) w = (Val None, w).
Proof.
  intros H. unfold embed, get_board. cbn. rewrite H. cbn.
  rewrite app_nil_r. by destruct w.
Qed.

Lemma embed_get_board_stored k (w : xworld) bd :
  stored (xdata w) k bd → embed (get_board k) w = (Val (Some bd), w).
Proof.
  intros (d & Hd & Hbd). unfold embed, get_board. cbn. rewrite Hd, Hbd. cbn.
  rewrite app_nil_r. by destruct w.
Qed.

(** In a context without record every command but [board_start] only
    answers with its refusal: the file is unchanged and nothing is
    published. *)
Theorem exec_absent (ul : pystr → N → pystr → pystr) (e : discord)
    (k : string) (c : command) (w : xworld) (r : event_more) :
  xdata w !! k = None → refusal c = Some r →
  exec ul e k c w = (Val tt, {| xdata := xdata w; xlog := xlog w ++ [r] |}).
Proof.
  intros Habs Hr.
  assert (∀ (m : M unit) (rp : reply),
            m {| data := xdata w; log := [] |}
            = (Val tt, {| data := xdata w; log := [Followup rp] |}) →
            embed m w = (Val tt, {| xdata := xdata w;
                                    xlog := xlog w ++ [Core (Followup rp)] |}))
    as Hembed.
  { intros m rp Hm. by rewrite (embed_run m w _ _ _ Hm). }
  destruct c; cbn in Hr; try discriminate; injection Hr as <-; cbn [exec].
  - apply Hembed. unfold board_add, bind, get_board. cbn. by rewrite Habs.
  - apply Hembed. unfold board_edit, bind, get_board. cbn. by rewrite Habs.
  - unfold board_undo, xbind. by rewrite embed_get_board_absent.
  - unfold board_show, xbind. by rewrite embed_get_board_absent.
  - apply Hembed. unfold board_rename, bind, get_board. cbn. by rewrite Habs.
  - unfold board_reset, xbind. by rewrite embed_get_board_absent.
  - unfold board_delete, xbind. by rewrite embed_get_board_absent.
  - apply Hembed. unfold board_zero_style, bind, get_board. cbn. by rewrite Habs.
Qed.

Lemma exec_absent_witness :
  exec lower_identity discord_found KEY CDelete xworld_empty
  = (Val tt, {| xdata := xdata xworld_empty;
                xlog := xlog xworld_empty ++ [FollowupMore MsgNoBoardHere] |}).
Proof.
  apply (exec_absent lower_identity discord_found KEY CDelete xworld_empty);
    reflexivity.
Defined.

(** ** What the commands keep true of the file *)

Lemma take_valid_name (n : pystr) : _is_ascii n = true → valid_name (take 8 n).
Proof.
  intros H. split; [by apply is_ascii_take | rewrite length_take; lia].
Qed.

Lemma validate_name_Some_valid (n : option pystr) (v : pystr) :
  _validate_name n = Some v → valid_name v.
Proof.
  destruct n as [n|]; [|done]. unfold _validate_name, slice_to.
  destruct (_is_ascii n) eqn:E; [|done]. intros [= <-]. by apply take_valid_name.
Qed.

Lemma good_board_renderable bd : good_board bd → renderable bd.
Proof. intros (Hr & Hp & _). unfold renderable. lia. Qed.

Lemma good_store_empty : good_store ∅.
Proof. intros k d H. by rewrite lookup_empty in H. Qed.

Lemma good_store_insert m k bd :
  good_store m → good_board bd → good_store (<[k := to_dict bd]> m).
Proof.
  intros Hm Hbd k' d. destruct (decide (k = k')) as [<- | Hne].
  - rewrite lookup_insert_eq. intros [= <-]. by exists bd.
  - rewrite lookup_insert_ne by done. apply Hm.
Qed.

Lemma good_store_delete m k : good_store m → good_store (delete k m).
Proof.
  intros Hm k' d Hd. apply lookup_delete_Some in Hd as [_ Hd]. by apply (Hm k').
Qed.

Lemma good_ret {A} (x : A) (Q : A → Prop) : Q x → keeps_good (ret x) Q.
Proof. intros HQ w Hw. by exists x, w. Qed.

Lemma good_emit ev : keeps_good (emit ev) (λ _, True).
Proof. intros w Hw. by eexists tt, _. Qed.

Lemma good_bind {A B} (m : M A) (f : A → M B) (Q : A → Prop) (R : B → Prop) :
  keeps_good m Q → (∀ x, Q x → keeps_good (f x) R) → keeps_good (bind m f) R.
Proof.
  intros Hm Hf w Hw. destruct (Hm w Hw) as (x & w' & E & Hw' & HQ).
  unfold bind. rewrite E. by apply Hf.
Qed.

Lemma good_get_board k :
  keeps_good (get_board k)
    (λ o, match o with Some bd => good_board bd | None => True end).
Proof.
  intros w Hw. unfold get_board. destruct (data w !! k) as [d|] eqn:E.
  - destruct (Hw k d E) as (bd & -> & Hbd). rewrite from_dict_to_dict.
    by exists (Some bd), w.
  - by exists None, w.
Qed.

Lemma good_save_board k bd :
  good_board bd → keeps_good (save_board k bd) (λ _, True).
Proof.
  intros Hbd w Hw. eexists tt, _. split; [reflexivity|].
  split; [|done]. by apply good_store_insert.
Qed.

Lemma good_render bd :
  renderable bd → keeps_good (lift (render bd)) (λ _, True).
Proof.
  intros Hbd w Hw. destruct (render_ok bd Hbd) as [text Htext].
  rewrite Htext. by exists text, w.
Qed.

Lemma good_refresh e bd :
  good_board bd → keeps_good (refresh e bd) good_board.
Proof.
  intros Hbd. unfold refresh.
  destruct (fetch_found e (message_id bd)).
  - eapply good_bind; [by apply good_render, good_board_renderable|].
    intros text _. eapply good_bind; [apply good_emit|].
    intros _ _. by apply good_ret.
  - eapply good_bind; [by apply good_render, good_board_renderable|].
    intros text _. eapply good_bind; [apply good_emit|].
    intros _ _. apply good_ret.
    destruct Hbd as (? & ? & ? & ? & _). by split_and!.
Qed.

(** The tail of the mutating commands. *)
Lemma good_publish e k bd (r : Board → reply) :
  good_board bd →
  keeps_good (bd' <~ refresh e bd; save_board k bd' ;;; emit (Followup (r bd')))
             (λ _, True).
Proof.
  intros Hbd. eapply good_bind; [by apply good_refresh|].
  intros bd' Hbd'. eapply good_bind; [by apply good_save_board|].
  intros _ _. apply good_emit.
Qed.

Lemma good_board_start e k pa pb t :
  keeps_good (board_start e k pa pb t) (λ _, True).
Proof.
  unfold board_start.
  destruct (_validate_name (Some pa)) as [va|] eqn:Ea; [|apply good_emit].
  destruct (_validate_name (Some pb)) as [vb|] eqn:Eb; [|apply good_emit].
  eapply good_bind; [apply good_get_board|]. intros existing _.
  match goal with |- keeps_good (if ?c then _ else _) _ => destruct c end;
    [apply good_emit|].
  cbv zeta. eapply good_bind; [apply good_render; split; cbn; lia|].
  intros text _. eapply good_bind; [apply good_emit|]. intros _ _.
  eapply good_bind; [|intros _ _; apply good_emit].
  apply good_save_board. unfold good_board. cbn. split_and!; try done.
  - by apply (validate_name_Some_valid (Some pa)).
  - by apply (validate_name_Some_valid (Some pb)).
Qed.

Lemma good_board_add e k x y : keeps_good (board_add e k x y) (λ _, True).
Proof.
  unfold board_add. eapply good_bind; [apply good_get_board|].
  intros [bd|] Hbd; [|apply good_emit].
  destruct (negb (truthy_id (message_id bd))); [apply good_emit|].
  cbv zeta. by apply (good_publish e k _ (λ b, MsgAdded (length (rounds b)) x y)).
Qed.

Lemma good_board_edit e k n x y : keeps_good (board_edit e k n x y) (λ _, True).
Proof.
  unfold board_edit. eapply good_bind; [apply good_get_board|].
  intros [bd|] Hbd; [|apply good_emit].
  destruct (bool_decide (rounds bd = [])); [apply good_emit|].
  destruct ((n <? 1) || (n >? Z.of_nat (length (rounds bd)))) eqn:En;
    [apply good_emit|].
  apply orb_false_iff in En as [E1 E2].
  apply Z.ltb_ge in E1. rewrite Z.gtb_ltb in E2. apply Z.ltb_ge in E2.
  cbv zeta.
  destruct (lookup_lt_is_Some_2 (rounds bd) (Z.to_nat (n - 1))) as [r Hr]; [lia|].
  rewrite Hr. eapply good_bind; [by apply (good_ret r (λ _, True))|].
  intros r' _.
  match goal with
  | |- keeps_good (bind (refresh e ?b) (λ bd', _ ;;; emit (Followup ?rp))) _ =>
      by apply (good_publish e k b (λ _, rp))
  end.
Qed.

Lemma good_board_rename e k pa pb t :
  keeps_good (board_rename e k pa pb t) (λ _, True).
Proof.
  unfold board_rename. eapply good_bind; [apply good_get_board|].
  intros [bd|] Hbd; [|apply good_emit].
  assert (∀ (set : Board → pystr → Board) (p : option pystr) (b : Board),
            good_board b →
            (∀ v, valid_name v → good_board (set b v)) →
            match (match p with
                   | None => Some b
                   | Some _ => v ← _validate_name p; Some (set b v)
                   end) with
            | Some b' => good_board b'
            | None => True
            end) as Hstep.
  { intros set p b Hb Hset. destruct p as [n|]; [|done].
    destruct (_validate_name (Some n)) as [v|] eqn:E; [|done]. cbn.
    apply Hset. by apply (validate_name_Some_valid (Some n)). }
  pose proof (Hstep set_player_a pa bd Hbd) as Ha.
  destruct (match pa with
            | None => Some bd
            | Some _ => va ← _validate_name pa; Some (set_player_a bd va)
            end) as [bd1|]; [|apply good_emit].
  assert (good_board bd1) as Hbd1.
  { apply Ha. intros v Hv. destruct Hbd as (?&?&?&?&?). by split_and!. }
  pose proof (Hstep set_player_b pb bd1 Hbd1) as Hb.
  destruct (match pb with
            | None => Some bd1
            | Some _ => vb ← _validate_name pb; Some (set_player_b bd1 vb)
            end) as [bd2|]; [|apply good_emit].
  assert (good_board bd2) as Hbd2.
  { apply Hb. intros v Hv. destruct Hbd1 as (?&?&?&?&?). by split_and!. }
  cbv zeta. apply (good_publish e k _ (λ _, MsgRenamed)).
  by destruct t as [[|c t']|].
Qed.

Lemma good_board_zero_style ul e k style :
  keeps_good (board_zero_style ul e k style) (λ _, True).
Proof.
  unfold board_zero_style. eapply good_bind; [apply good_get_board|].
  intros [bd|] Hbd; [|apply good_emit].
  destruct (bool_decide (lower ul style = lit "dash")).
  - by apply (good_publish e k _ (λ b, MsgZeroStyle (zero_as_dash b))).
  - destruct (bool_decide (lower ul style = lit "zero")); [|apply good_emit].
    by apply (good_publish e k _ (λ b, MsgZeroStyle (zero_as_dash b))).
Qed.

Lemma xgood_ret {A} (x : A) (Q : A → Prop) : Q x → xkeeps_good (xret x) Q.
Proof. intros HQ w Hw. by exists x, w. Qed.

Lemma xgood_emit ev : xkeeps_good (xemit ev) (λ _, True).
Proof. intros w Hw. by eexists tt, _. Qed.

Lemma xgood_bind {A B} (m : X A) (f : A → X B) (Q : A → Prop) (R : B → Prop) :
  xkeeps_good m Q → (∀ x, Q x → xkeeps_good (f x) R) →
  xkeeps_good (xbind m f) R.
Proof.
  intros Hm Hf w Hw. destruct (Hm w Hw) as (x & w' & E & Hw' & HQ).
  unfold xbind. rewrite E. by apply Hf.
Qed.

Lemma xgood_embed {A} (m : M A) (Q : A → Prop) :
  keeps_good m Q → xkeeps_good (embed m) Q.
Proof.
  intros Hm w Hw.
  destruct (Hm {| data := xdata w; log := [] |} Hw) as (x & w' & E & Hw' & HQ).
  unfold embed. rewrite E. by eexists x, _.
Qed.

Lemma xgood_remove_key k : xkeeps_good (remove_key k) (λ _, True).
Proof.
  intros w Hw. unfold remove_key. destruct (xdata w !! k).
  - eexists tt, _. split; [reflexivity|]. split; [|done]. by apply good_store_delete.
  - by exists tt, w.
Qed.

Lemma xgood_publish e k bd (r : reply_more) :
  good_board bd →
  xkeeps_good (bd' <~~ embed (refresh e bd);
               embed (save_board k bd') ;;;; xemit (FollowupMore r))
              (λ _, True).
Proof.
  intros Hbd. eapply xgood_bind; [by apply xgood_embed, good_refresh|].
  intros bd' Hbd'. eapply xgood_bind; [by apply xgood_embed, good_save_board|].
  intros _ _. apply xgood_emit.
Qed.

Lemma xgood_board_undo e k : xkeeps_good (board_undo e k) (λ _, True).
Proof.
  unfold board_undo. eapply xgood_bind; [apply xgood_embed, good_get_board|].
  intros [bd|] Hbd; [|apply xgood_emit].
  destruct (bool_decide (rounds bd = [])); [apply xgood_emit|].
  by apply xgood_publish.
Qed.

Lemma xgood_board_show e k : xkeeps_good (board_show e k) (λ _, True).
Proof.
  unfold board_show. eapply xgood_bind; [apply xgood_embed, good_get_board|].
  intros [bd|] Hbd; [|apply xgood_emit].
  destruct (truthy_id (message_id bd) && fetch_found e (message_id bd)).
  - eapply xgood_bind;
      [by apply xgood_embed, good_render, good_board_renderable|].
    intros text _. eapply xgood_bind; [apply xgood_emit|].
    intros _ _. apply xgood_emit.
  - eapply xgood_bind;
      [by apply xgood_embed, good_render, good_board_renderable|].
    intros text _. eapply xgood_bind; [apply xgood_emit|]. intros _ _.
    cbv zeta. eapply xgood_bind; [|intros _ _; apply xgood_emit].
    apply xgood_embed, good_save_board.
    destruct Hbd as (? & ? & ? & ? & _). by split_and!.
Qed.

Lemma xgood_board_reset e k : xkeeps_good (board_reset e k) (λ _, True).
Proof.
  unfold board_reset. eapply xgood_bind; [apply xgood_embed, good_get_board|].
  intros [bd|] Hbd; [|apply xgood_emit]. by apply xgood_publish.
Qed.

Lemma xgood_board_delete e k : xkeeps_good (board_delete e k) (λ _, True).
Proof.
  unfold board_delete. eapply xgood_bind; [apply xgood_embed, good_get_board|].
  intros [bd|] Hbd; [|apply xgood_emit].
  eapply xgood_bind.
  { destruct (truthy_id (message_id bd) && fetch_found e (message_id bd));
      [apply xgood_emit | by apply (xgood_ret tt (λ _, True))]. }
  intros _ _. eapply xgood_bind; [apply xgood_remove_key|].
  intros _ _. apply xgood_emit.
Qed.

Lemma xgood_exec ul e k c : xkeeps_good (exec ul e k c) (λ _, True).
Proof.
  destruct c; cbn [exec].
  - apply xgood_embed, good_board_start.
  - apply xgood_embed, good_board_add.
  - apply xgood_embed, good_board_edit.
  - apply xgood_board_undo.
  - apply xgood_board_show.
  - apply xgood_embed, good_board_rename.
  - apply xgood_board_reset.
  - apply xgood_board_delete.
  - apply xgood_embed, good_board_zero_style.
Qed.

(** A good file stays good: when every entry is a record with the
    default layout, names of at most 8 ASCII characters and a message
    id, the file a command leaves has only such entries again. *)
Theorem exec_keeps_good (ul : pystr → N → pystr → pystr) (e : discord)
    (k : string) (c : command) (w : xworld) :
  good_store (xdata w) → good_store (xdata (exec ul e k c w).2).
Proof.
  intros Hw. destruct (xgood_exec ul e k c w Hw) as ([] & w' & E & Hw' & _).
  by rewrite E.
Qed.

Lemma good_store_scenario_A :
  good_store ({[ KEY := to_dict scenario_A ]} : gmap string dict).
Proof.
  rewrite <- insert_empty. apply good_store_insert; [apply good_store_empty|].
  unfold good_board, valid_name. cbn. split_and!; try done; try lia.
Qed.

Lemma exec_keeps_good_witness :
  good_store
    (xdata (exec lower_identity discord_found KEY
              (CRename (Some (lit "Leonardo_da_Vinci")) None None)
              {| xdata := {[ KEY := to_dict scenario_A ]}; xlog := [] |}).2).
Proof.
  apply (exec_keeps_good lower_identity discord_found KEY
           (CRename (Some (lit "Leonardo_da_Vinci")) None None)
           {| xdata := {[ KEY := to_dict scenario_A ]}; xlog := [] |}).
  exact good_store_scenario_A.
Defined.

(** Every file reached from a good one by commands, in whatever
    contexts and with Discord finding the message or not, is good; so
    is every file reached from the empty file: the records it holds
    have the default layout, names of at most 8 ASCII characters and a
    message id. *)
Theorem session_keeps_good (ul : pystr → N → pystr → pystr)
    (cs : list (discord * string * command)) (w : xworld) :
  good_store (xdata w) → good_store (xdata (exec_all ul cs w)).
Proof.
  revert w. induction cs as [|[[e k] c] cs IH]; intros w Hw; [done|].
  cbn [exec_all]. apply IH.
  destruct (xgood_exec ul e k c w Hw) as ([] & w1 & E & Hw1 & _).
  by rewrite E.
Qed.

Lemma session_keeps_good_witness :
  good_store
    (xdata (exec_all lower_identity
              [ (discord_gone, KEY, CStart (lit "Leonardo_da_Vinci") (lit "Bob") None);
                (discord_found, KEY, CAdd 3 1);
                (discord_gone, KEY, CRename None (Some (lit "Roberta_the_2nd")) None);
                (discord_found, KEY, CUndo) ]
              xworld_empty)).
Proof.
  apply (session_keeps_good lower_identity _ xworld_empty).
  exact good_store_empty.
Defined.

(** ** board_undo, board_reset, board_show, board_delete *)

Lemma xpublish_run e k bd (r : reply_more) (w : xworld) text :
  render bd = Some text →
  (bd' <~~ embed (refresh e bd);
   embed (save_board k bd') ;;;; xemit (FollowupMore r)) w
  = (Val tt,
     {| xdata := <[k := to_dict (refreshed e bd)]> (xdata w);
        xlog := xlog w ++ [Core (refresh_event e bd text);
                           Core (Save k (to_dict (refreshed e bd)));
                           FollowupMore r] |}).
Proof.
  intros Hr. unfold xbind.
  rewrite (embed_run _ w _ _ _ (refresh_run e bd _ text Hr)).
  unfold embed, save_board, xemit. cbn. by rewrite <- !app_assoc.
Qed.

Lemma pop_snoc (rs : list Round) (r : Round) : pop (rs ++ [r]) = rs.
Proof.
  unfold pop. rewrite length_app. cbn.
  replace (length rs + 1 - 1)%nat with (length rs) by lia.
  by rewrite take_app_length.
Qed.

(** [board_undo] on a record without rounds answers that there is
    nothing to take back and leaves the file alone; on a record whose
    rounds end with [r] it saves the record with exactly that last
    round removed and everything else (but possibly the message id) as
    it was. *)
Theorem board_undo_spec (e : discord) (k : string) (w : xworld) (bd : Board) :
  stored (xdata w) k bd →
  (rounds bd = [] →
   board_undo e k w
   = (Val tt, {| xdata := xdata w;
                 xlog := xlog w ++ [FollowupMore MsgNothingToUndo] |}))
  ∧ (∀ rs r, rounds bd = rs ++ [r] → renderable bd →
     ∃ text bd',
       bd' = refreshed e (set_rounds bd rs)
       ∧ board_undo e k w
         = (Val tt,
            {| xdata := <[k := to_dict bd']> (xdata w);
               xlog := xlog w ++ [Core (refresh_event e (set_rounds bd rs) text);
                                  Core (Save k (to_dict bd'));
                                  FollowupMore MsgUndone] |})
       ∧ rounds bd' = rs
       ∧ title bd' = title bd ∧ player_a bd' = player_a bd
       ∧ player_b bd' = player_b bd ∧ zero_as_dash bd' = zero_as_dash bd).
Proof.
  intros Hst. split.
  - intros Hrs. unfold board_undo, xbind.
    by rewrite (embed_get_board_stored k w bd Hst), Hrs.
  - intros rs r Hrs Hren.
    destruct (render_ok (set_rounds bd rs) Hren) as [text Htext].
    exists text, (refreshed e (set_rounds bd rs)). split; [done|].
    destruct (refreshed_fields e (set_rounds bd rs))
      as (Ht & Hpa & Hpb & Hr & _ & _ & Hz).
    split; [|by repeat split].
    unfold board_undo. unfold xbind at 1.
    rewrite (embed_get_board_stored k w bd Hst).
    rewrite bool_decide_eq_false_2 by (rewrite Hrs; by destruct rs).
    cbv zeta. rewrite Hrs, pop_snoc. by apply xpublish_run.
Qed.

Lemma board_undo_spec_witness :
  ∃ text bd',
    bd' = refreshed discord_found (set_rounds scenario_A [mkRound 3 1])
    ∧ board_undo discord_found KEY
        {| xdata := {[ KEY := to_dict scenario_A ]}; xlog := [] |}
      = (Val tt,
         {| xdata := <[KEY := to_dict bd']> {[ KEY := to_dict scenario_A ]};
            xlog := [] ++ [Core (refresh_event discord_found
                                   (set_rounds scenario_A [mkRound 3 1]) text);
                           Core (Save KEY (to_dict bd'));
                           FollowupMore MsgUndone] |})
    ∧ rounds bd' = [mkRound 3 1]
    ∧ title bd' = title scenario_A ∧ player_a bd' = player_a scenario_A
    ∧ player_b bd' = player_b scenario_A
    ∧ zero_as_dash bd' = zero_as_dash scenario_A.
Proof.
  refine (proj2 (board_undo_spec discord_found KEY
                   {| xdata := {[ KEY := to_dict scenario_A ]}; xlog := [] |}
                   scenario_A _) [mkRound 3 1] (mkRound 0 2) _ _).
  - exists (to_dict scenario_A). split; [apply lookup_singleton_eq | reflexivity].
  - reflexivity.
  - split; cbn; lia.
Defined.

(** [board_reset] on any existing record (with or without rounds or
    message id) saves it with no rounds and with its names, title, zero
    style and layout kept. *)
Theorem board_reset_spec (e : discord) (k : string) (w : xworld) (bd : Board) :
  stored (xdata w) k bd → renderable bd →
  ∃ text bd',
    bd' = refreshed e (set_rounds bd [])
    ∧ board_reset e k w
      = (Val tt,
         {| xdata := <[k := to_dict bd']> (xdata w);
            xlog := xlog w ++ [Core (refresh_event e (set_rounds bd []) text);
                               Core (Save k (to_dict bd'));
                               FollowupMore MsgResetDone] |})
    ∧ rounds bd' = [] ∧ totals bd' = (0, 0)
    ∧ title bd' = title bd ∧ player_a bd' = player_a bd
    ∧ player_b bd' = player_b bd ∧ zero_as_dash bd' = zero_as_dash bd
    ∧ COL_RND bd' = COL_RND bd ∧ COL_PLY bd' = COL_PLY bd.
Proof.
  intros Hst Hren.
  destruct (render_ok (set_rounds bd []) Hren) as [text Htext].
  exists text, (refreshed e (set_rounds bd [])). split; [done|].
  destruct (refreshed_fields e (set_rounds bd []))
    as (Ht & Hpa & Hpb & Hr & Hcr & Hcp & Hz).
  split.
  - unfold board_reset. unfold xbind at 1.
    rewrite (embed_get_board_stored k w bd Hst). by apply xpublish_run.
  - unfold totals. rewrite Hr. by repeat split.
Qed.

Lemma board_reset_spec_witness :
  ∃ text bd',
    bd' = refreshed discord_gone (set_rounds scenario_A [])
    ∧ board_reset discord_gone KEY
        {| xdata := {[ KEY := to_dict scenario_A ]}; xlog := [] |}
      = (Val tt,
         {| xdata := <[KEY := to_dict bd']> {[ KEY := to_dict scenario_A ]};
            xlog := [] ++ [Core (refresh_event discord_gone
                                   (set_rounds scenario_A []) text);
                           Core (Save KEY (to_dict bd'));
                           FollowupMore MsgResetDone] |})
    ∧ rounds bd' = [] ∧ totals bd' = (0, 0)
    ∧ title bd' = title scenario_A ∧ player_a bd' = player_a scenario_A
    ∧ player_b bd' = player_b scenario_A
    ∧ zero_as_dash bd' = zero_as_dash scenario_A
    ∧ COL_RND bd' = COL_RND scenario_A ∧ COL_PLY bd' = COL_PLY scenario_A.
Proof.
  refine (board_reset_spec discord_gone KEY
            {| xdata := {[ KEY := to_dict scenario_A ]}; xlog := [] |}
            scenario_A _ _).
  - exists (to_dict scenario_A). split; [apply lookup_singleton_eq | reflexivity].
  - split; cbn; lia.
Defined.

(** [board_show] never writes the file when the record's message is
    still there: it only edits the message. When the record has no
    message id or the message is gone, it sends the board again and
    saves the record with the new message id and nothing else changed. *)
Theorem board_show_spec (e : discord) (k : string) (w : xworld) (bd : Board) :
  stored (xdata w) k bd → renderable bd →
  ∃ text,
    render bd = Some text
    ∧ (truthy_id (message_id bd) = true →
       fetch_found e (message_id bd) = true →
       board_show e k w
       = (Val tt,
          {| xdata := xdata w;
             xlog := xlog w ++ [Core (EditMsg (message_id bd) text);
                                FollowupMore MsgUpdated] |}))
    ∧ (truthy_id (message_id bd) = false
       ∨ fetch_found e (message_id bd) = false →
       board_show e k w
       = (Val tt,
          {| xdata := <[k := to_dict (set_message_id bd (Some (sent_id e)))]>
                        (xdata w);
             xlog := xlog w
                     ++ [Core (Send text);
                         Core (Save k (to_dict (set_message_id bd
                                                  (Some (sent_id e)))));
                         FollowupMore MsgReshown] |})).
Proof.
  intros Hst Hren. destruct (render_ok bd Hren) as [text Htext].
  exists text. split; [done|]. split.
  - intros Hid Hf. unfold board_show. unfold xbind at 1.
    rewrite (embed_get_board_stored k w bd Hst), Hid, Hf. cbn [andb].
    unfold xbind, embed, lift. rewrite Htext. unfold xemit. cbn.
    by rewrite app_nil_r, <- !app_assoc.
  - intros Hno. unfold board_show. unfold xbind at 1.
    rewrite (embed_get_board_stored k w bd Hst).
    assert (truthy_id (message_id bd) && fetch_found e (message_id bd) = false)
      as -> by (destruct Hno as [-> | ->]; [done | by rewrite andb_false_r]).
    unfold xbind, embed, lift. rewrite Htext. unfold xemit, save_board. cbn.
    by rewrite app_nil_r, <- !app_assoc.
Qed.

Lemma board_show_spec_witness :
  ∃ text,
    render scenario_A = Some text
    ∧ (truthy_id (message_id scenario_A) = true →
       fetch_found discord_found (message_id scenario_A) = true →
       board_show discord_found KEY
         {| xdata := {[ KEY := to_dict scenario_A ]}; xlog := [] |}
       = (Val tt,
          {| xdata := {[ KEY := to_dict scenario_A ]};
             xlog := [] ++ [Core (EditMsg (message_id scenario_A) text);
                            FollowupMore MsgUpdated] |}))
    ∧ (truthy_id (message_id scenario_A) = false
       ∨ fetch_found discord_found (message_id scenario_A) = false →
       board_show discord_found KEY
         {| xdata := {[ KEY := to_dict scenario_A ]}; xlog := [] |}
       = (Val tt,
          {| xdata := <[KEY := to_dict (set_message_id scenario_A (Some 99))]>
                        {[ KEY := to_dict scenario_A ]};
             xlog := []
                     ++ [Core (Send text);
                         Core (Save KEY (to_dict (set_message_id scenario_A
                                                    (Some 99))));
                         FollowupMore MsgReshown] |})).
Proof.
  refine (board_show_spec discord_found KEY
            {| xdata := {[ KEY := to_dict scenario_A ]}; xlog := [] |}
            scenario_A _ _).
  - exists (to_dict scenario_A). split; [apply lookup_singleton_eq | reflexivity].
  - split; cbn; lia.
Defined.

Lemma board_delete_runs (e : discord) (k : string) (w : xworld) (bd : Board) :
  stored (xdata w) k bd →
  board_delete e k w
  = (Val tt,
     {| xdata := delete k (xdata w);
        xlog := xlog w
                ++ (if truthy_id (message_id bd) && fetch_found e (message_id bd)
                    then [DeleteMsg (message_id bd)] else [])
                ++ [Remove k; FollowupMore MsgDeleted] |}).
Proof.
  intros Hst. unfold board_delete. unfold xbind at 1.
  rewrite (embed_get_board_stored k w bd Hst).
  destruct Hst as (d & Hd & _).
  destruct (truthy_id (message_id bd) && fetch_found e (message_id bd));
    unfold xbind, xemit, xret, remove_key; cbn; rewrite Hd; cbn;
    by rewrite <- ?app_assoc.
Qed.

(** [board_delete] on an existing record, renderable or not, removes
    the key from the file and nothing else; the message is deleted only
    when the record has a message id and the message is found. After it
    the context has no record. *)
Theorem board_delete_spec (e : discord) (k : string) (w : xworld) (bd : Board) :
  stored (xdata w) k bd →
  board_delete e k w
  = (Val tt,
     {| xdata := delete k (xdata w);
        xlog := xlog w
                ++ (if truthy_id (message_id bd) && fetch_found e (message_id bd)
                    then [DeleteMsg (message_id bd)] else [])
                ++ [Remove k; FollowupMore MsgDeleted] |})
  ∧ xdata (board_delete e k w).2 !! k = None
  ∧ ∀ k', k' ≠ k → xdata (board_delete e k w).2 !! k' = xdata w !! k'.
Proof.
  intros Hst. rewrite (board_delete_runs e k w bd Hst). cbn.
  split; [done|]. split.
  - apply lookup_delete_eq.
  - intros k' Hk'. by apply lookup_delete_ne.
Qed.

Lemma board_delete_spec_witness :
  board_delete discord_found KEY
    {| xdata := {[ KEY := to_dict scenario_A ]}; xlog := [] |}
  = (Val tt,
     {| xdata := delete KEY {[ KEY := to_dict scenario_A ]};
        xlog := [] ++ [DeleteMsg (Some 7)]
                   ++ [Remove KEY; FollowupMore MsgDeleted] |})
  ∧ xdata (board_delete discord_found KEY
             {| xdata := {[ KEY := to_dict scenario_A ]}; xlog := [] |}).2
      !! KEY = None
  ∧ ∀ k', k' ≠ KEY →
      xdata (board_delete discord_found KEY
               {| xdata := {[ KEY := to_dict scenario_A ]}; xlog := [] |}).2 !! k'
      = ({[ KEY := to_dict scenario_A ]} : gmap string dict) !! k'.
Proof.
  refine (board_delete_spec discord_found KEY
            {| xdata := {[ KEY := to_dict scenario_A ]}; xlog := [] |}
            scenario_A _).
  exists (to_dict scenario_A). split; [apply lookup_singleton_eq | reflexivity].
Defined.

(** Deleting frees the context: [board_delete] followed by
    [board_start] with two valid names always creates the new record,
    even when the old one had rounds and a message. *)
Theorem delete_then_start (e1 e2 : discord) (k : string) (w : xworld)
    (bd : Board) (pa pb : pystr) (t : option pystr) :
  stored (xdata w) k bd →
  _is_ascii pa = true → _is_ascii pb = true →
  ∃ w',
    (board_delete e1 k ;;;; embed (board_start e2 k pa pb t)) w = (Val tt, w')
    ∧ xdata w'
      = <[k := to_dict {| title := or_else t DEFAULT_TITLE;
                          player_a := take 8 pa; player_b := take 8 pb;
                          rounds := []; message_id := Some (sent_id e2);
                          COL_RND := 5; COL_PLY := 10;
                          zero_as_dash := true |}]> (xdata w).
Proof.
  intros Hst Ha Hb.
  pose proof (board_delete_runs e1 k w bd Hst) as Hrun.
  assert (delete k (xdata w) !! k = None) as Hnone by apply lookup_delete_eq.
  unfold xbind at 1. rewrite Hrun.
  match goal with |- ∃ w', embed _ ?w1 = _ ∧ _ => set (w1' := w1) end.
  destruct (board_start_runs e2 k pa pb (take 8 pa) (take 8 pb) t
              {| data := xdata w1'; log := [] |} None) as (text & _ & Hstart).
  { unfold _validate_name, slice_to. by rewrite Ha. }
  { unfold _validate_name, slice_to. by rewrite Hb. }
  { unfold get_board. cbn. by rewrite Hnone. }
  { done. }
  cbn zeta in Hstart. rewrite (embed_run _ w1' _ _ _ Hstart).
  eexists. split; [reflexivity|]. cbn. apply insert_delete_eq.
Qed.

Lemma delete_then_start_witness :
  ∃ w',
    (board_delete discord_found KEY ;;;;
     embed (board_start discord_gone KEY (lit "Ann") (lit "Bob") None))
      {| xdata := {[ KEY := to_dict scenario_A ]}; xlog := [] |} = (Val tt, w')
    ∧ xdata w'
      = <[KEY := to_dict {| title := or_else None DEFAULT_TITLE;
                            player_a := take 8 (lit "Ann");
                            player_b := take 8 (lit "Bob");
                            rounds := []; message_id := Some 99;
                            COL_RND := 5; COL_PLY := 10;
                            zero_as_dash := true |}]>
          {[ KEY := to_dict scenario_A ]}.
Proof.
  refine (delete_then_start discord_found discord_gone KEY
            {| xdata := {[ KEY := to_dict scenario_A ]}; xlog := [] |}
            scenario_A (lit "Ann") (lit "Bob") None _ _ _).
  - exists (to_dict scenario_A). split; [apply lookup_singleton_eq | reflexivity].
  - reflexivity.
  - reflexivity.
Defined.

(** ** How commands compose *)

Lemma board_undo_runs (e : discord) (k : string) (w : xworld) (bd : Board) rs r :
  stored (xdata w) k bd → rounds bd = rs ++ [r] → renderable bd →
  ∃ text,
    board_undo e k w
    = (Val tt,
       {| xdata := <[k := to_dict (refreshed e (set_rounds bd rs))]> (xdata w);
          xlog := xlog w ++ [Core (refresh_event e (set_rounds bd rs) text);
                             Core (Save k (to_dict (refreshed e (set_rounds bd rs))));
                             FollowupMore MsgUndone] |}).
Proof.
  intros Hst Hrs Hren.
  destruct (render_ok (set_rounds bd rs) Hren) as [text Htext].
  exists text. unfold board_undo. unfold xbind at 1.
  rewrite (embed_get_board_stored k w bd Hst).
  rewrite bool_decide_eq_false_2 by (rewrite Hrs; by destruct rs).
  cbv zeta. rewrite Hrs, pop_snoc. by apply xpublish_run.
Qed.

(** [board_add] followed by [board_undo] gives back the rounds, names,
    title, zero style and layout the record had; when the board's
    message was found both times, the record is the one it was. *)
Theorem add_then_undo (e1 e2 : discord) (k : string) (w : xworld)
    (bd : Board) (x y : Z) :
  stored (xdata w) k bd → truthy_id (message_id bd) = true → renderable bd →
  ∃ w' bd',
    (embed (board_add e1 k x y) ;;;; board_undo e2 k) w = (Val tt, w')
    ∧ xdata w' = <[k := to_dict bd']> (xdata w)
    ∧ rounds bd' = rounds bd
    ∧ title bd' = title bd ∧ player_a bd' = player_a bd
    ∧ player_b bd' = player_b bd ∧ zero_as_dash bd' = zero_as_dash bd
    ∧ COL_RND bd' = COL_RND bd ∧ COL_PLY bd' = COL_PLY bd
    ∧ (fetch_found e1 (message_id bd) = true →
       fetch_found e2 (message_id bd) = true → bd' = bd).
Proof.
  intros Hst Hid Hren.
  destruct (board_add_published e1 k x y {| data := xdata w; log := [] |} bd
              Hst Hid Hren) as (text1 & _ & Hadd).
  cbn zeta in Hadd.
  set (bd1 := set_rounds bd (rounds bd ++ [mkRound x y])) in *.
  set (bd2 := refreshed e1 bd1) in *.
  unfold xbind at 1. rewrite (embed_run _ w _ _ _ Hadd).
  match goal with |- ∃ w' bd', board_undo _ _ ?w1 = _ ∧ _ => set (w1' := w1) end.
  destruct (refreshed_fields e1 bd1) as (Ht2 & Hpa2 & Hpb2 & Hr2 & Hcr2 & Hcp2 & Hz2).
  fold bd2 in Ht2, Hpa2, Hpb2, Hr2, Hcr2, Hcp2, Hz2.
  assert (stored (xdata w1') k bd2) as Hst2.
  { exists (to_dict bd2). split; [apply lookup_insert_eq | apply from_dict_to_dict]. }
  assert (renderable bd2) as Hren2.
  { unfold renderable. by rewrite Hcr2, Hcp2. }
  destruct (board_undo_runs e2 k w1' bd2 (rounds bd) (mkRound x y) Hst2 Hr2 Hren2)
    as (text2 & Hundo).
  rewrite Hundo.
  set (bd3 := refreshed e2 (set_rounds bd2 (rounds bd))).
  destruct (refreshed_fields e2 (set_rounds bd2 (rounds bd)))
    as (Ht3 & Hpa3 & Hpb3 & Hr3 & Hcr3 & Hcp3 & Hz3).
  fold bd3 in Ht3, Hpa3, Hpb3, Hr3, Hcr3, Hcp3, Hz3.
  eexists _, bd3. split; [reflexivity|]. cbn [xdata w1'].
  split; [apply insert_insert_eq|].
  split; [done|]. split; [by rewrite Ht3; cbn; rewrite Ht2|].
  split; [by rewrite Hpa3; cbn; rewrite Hpa2|].
  split; [by rewrite Hpb3; cbn; rewrite Hpb2|].
  split; [by rewrite Hz3; cbn; rewrite Hz2|].
  split; [by rewrite Hcr3; cbn; rewrite Hcr2|].
  split; [by rewrite Hcp3; cbn; rewrite Hcp2|].
  intros Hf1 Hf2. subst bd3 bd2. unfold refreshed at 2.
  change (message_id bd1) with (message_id bd). rewrite Hf1.
  assert (set_rounds bd1 (rounds bd) = bd) as -> by by destruct bd.
  unfold refreshed. by rewrite Hf2.
Qed.

Lemma add_then_undo_witness :
  ∃ w' bd',
    (embed (board_add discord_found KEY 5 0) ;;;; board_undo discord_found KEY)
      {| xdata := {[ KEY := to_dict scenario_A ]}; xlog := [] |} = (Val tt, w')
    ∧ xdata w' = <[KEY := to_dict bd']> {[ KEY := to_dict scenario_A ]}
    ∧ rounds bd' = rounds scenario_A
    ∧ title bd' = title scenario_A ∧ player_a bd' = player_a scenario_A
    ∧ player_b bd' = player_b scenario_A
    ∧ zero_as_dash bd' = zero_as_dash scenario_A
    ∧ COL_RND bd' = COL_RND scenario_A ∧ COL_PLY bd' = COL_PLY scenario_A
    ∧ (fetch_found discord_found (message_id scenario_A) = true →
       fetch_found discord_found (message_id scenario_A) = true →
       bd' = scenario_A).
Proof.
  refine (add_then_undo discord_found discord_found KEY
            {| xdata := {[ KEY := to_dict scenario_A ]}; xlog := [] |}
            scenario_A 5 0 _ _ _).
  - exists (to_dict scenario_A). split; [apply lookup_singleton_eq | reflexivity].
  - reflexivity.
  - split; cbn; lia.
Defined.



(** ** Scores that fit the columns *)

Lemma of_uint_acc_ge (d : uint) : ∀ acc : positive,
  Z.pos acc * 10 ^ Z.of_nat (nb_digits d) ≤ Z.pos (Pos.of_uint_acc d acc).
Proof.
  induction d; intros acc; cbn [nb_digits Pos.of_uint_acc];
    try (rewrite Z.pow_0_r; lia);
    rewrite Nat2Z.inj_succ, Z.pow_succ_r by lia;
    (etrans; [|apply IHd]);
    assert (0 < 10 ^ Z.of_nat (nb_digits d)) by (apply Z.pow_pos_nonneg; lia);
    nia.
Qed.

Lemma to_uint_unorm (p : positive) : unorm (Pos.to_uint p) = Pos.to_uint p.
Proof.
  rewrite <- (Unsigned.to_of (Pos.to_uint p)), Unsigned.of_to. reflexivity.
Qed.

Lemma to_uint_no_leading_zero (p : positive) (d : uint) : Pos.to_uint p ≠ D0 d.
Proof.
  intros H. pose proof (to_uint_unorm p) as Hn. rewrite H in Hn.
  change (unorm (D0 d)) with (unorm d) in Hn.
  assert (d = Nil) as ->.
  { destruct d; try done;
      match goal with
      | Hn : unorm ?u = _ |- _ =>
          pose proof (DecimalFacts.nb_digits_unorm u ltac:(discriminate)) as Hd;
          rewrite Hn in Hd; cbn in Hd; lia
      end. }
  by apply (Unsigned.to_uint_nonzero p).
Qed.

Lemma nb_digits_to_uint (p : positive) (n : nat) :
  Z.pos p < 10 ^ Z.of_nat n → (nb_digits (Pos.to_uint p) ≤ n)%nat.
Proof.
  intros Hp. pose proof (Unsigned.of_to p) as Hof.
  pose proof (to_uint_no_leading_zero p) as Hz.
  destruct (Pos.to_uint p) as [|d|d|d|d|d|d|d|d|d|d] eqn:E;
    [cbn; lia | by destruct (Hz d) | ..];
    cbn [Pos.of_uint] in Hof; injection Hof as Hof;
    match type of Hof with
    | Pos.of_uint_acc d ?acc = p =>
        pose proof (of_uint_acc_ge d acc) as Hge; rewrite Hof in Hge
    end;
    cbn [nb_digits];
    (destruct (decide (nb_digits d < n)%nat) as [|Hbig]; [lia|]);
    exfalso;
    assert (10 ^ Z.of_nat n ≤ 10 ^ Z.of_nat (nb_digits d))
      by (apply Z.pow_le_mono_r; lia);
    nia.
Qed.

Lemma length_string_of_uint (d : uint) :
  length (lit (NilEmpty.string_of_uint d)) = nb_digits d.
Proof.
  unfold lit. rewrite length_map.
  induction d; cbn [NilEmpty.string_of_uint list_ascii_of_string length nb_digits];
    by rewrite ?IHd.
Qed.

Lemma length_digits (p : positive) (n : nat) :
  Z.pos p < 10 ^ Z.of_nat n →
  (length (lit (NilEmpty.string_of_uint (Pos.to_uint p))) ≤ n)%nat.
Proof. intros. rewrite length_string_of_uint. by apply nb_digits_to_uint. Qed.

Lemma length_str_int (x : Z) (n : nat) :
  - 10 ^ Z.of_nat n < x < 10 ^ Z.of_nat (S n) →
  (length (str_int x) ≤ S n)%nat.
Proof.
  intros [Hlo Hhi]. destruct x as [|p|p].
  - cbn. lia.
  - unfold str_int. cbn [Z.to_int NilZero.string_of_int].
    destruct (string_of_pos_nonnil p) as [-> _]. by apply length_digits.
  - unfold str_int. cbn [Z.to_int NilZero.string_of_int].
    destruct (string_of_pos_nonnil p) as [-> _].
    change (lit (String "-" ?s)) with (45%N :: lit s). cbn [length].
    apply le_n_S, length_digits. lia.
Qed.

Lemma length_fmt_plus_d (x : Z) (n : nat) :
  - 10 ^ Z.of_nat n < x < 10 ^ Z.of_nat n → (0 < n)%nat →
  (length (fmt_plus_d x) ≤ S n)%nat.
Proof.
  intros [Hlo Hhi] Hn. unfold fmt_plus_d. rewrite length_app.
  assert (length (if x <? 0 then lit "-" else lit "+") = 1%nat) as ->
    by by destruct (x <? 0).
  destruct x as [|p|p]; cbn [Z.abs_N N.to_uint].
  - cbn. lia.
  - apply le_n_S, length_digits. lia.
  - apply le_n_S, length_digits. lia.
Qed.

(** The table is 29 wide for ordinary matches: with at most 9999
    rounds, every score and both totals between -99,999,999 and
    999,999,999 and the difference of the totals between -99,999,999
    and 99,999,999, every number text fits its column. *)
Theorem fits_of_bounds (bd : Board) :
  Z.of_nat (length (rounds bd)) ≤ 9999 →
  (∀ r, r ∈ rounds bd →
     -100000000 < a r < 1000000000 ∧ -100000000 < b r < 1000000000) →
  -100000000 < (totals bd).1 < 1000000000 →
  -100000000 < (totals bd).2 < 1000000000 →
  -100000000 < (totals bd).1 - (totals bd).2 < 100000000 →
  fits bd.
Proof.
  intros Hn Hrs Hta Htb Hd.
  assert (∀ x, -100000000 < x < 1000000000 →
            (length (score_text bd x) ≤ 9)%nat) as Hscore.
  { intros x Hx. unfold score_text. destruct (x =? 0).
    - destruct (zero_as_dash bd); cbn; lia.
    - apply (length_str_int x 8). cbn. lia. }
  unfold fits. split_and!.
  - intros i Hi. apply (length_str_int i 3). cbn. lia.
  - intros r Hr. destruct (Hrs r Hr). split; by apply Hscore.
  - by apply Hscore.
  - by apply Hscore.
  - apply (length_fmt_plus_d _ 8); [|lia].
    assert (10 ^ Z.of_nat 8 = 100000000) as -> by reflexivity. lia.
  - apply (length_fmt_plus_d _ 8); [|lia].
    assert (10 ^ Z.of_nat 8 = 100000000) as -> by reflexivity. lia.
Qed.

Lemma fits_of_bounds_witness : fits scenario_A.
Proof.
  apply (fits_of_bounds scenario_A); try (cbn; lia).
  intros r Hr.
  apply elem_of_cons in Hr as [-> | Hr]; [cbn; lia|].
  apply elem_of_cons in Hr as [-> | Hr]; [cbn; lia|].
  by apply elem_of_nil in Hr.
Defined.

